(** * use-context-selector: the versioned cell, its two-phase broadcast and
      the consumer-side reducer of [src/index.ts], embedded and verified. *)

From Stdlib Require Import String ZArith List Bool Lia Sorted.
Import ListNotations.
Open Scope Z_scope.

(* ================================================================== *)
(** ** JavaScript values, reference identity, exceptions *)

(** A JavaScript value as far as [Object.is] can tell values apart:
    primitives by content, objects by their address.  Numbers are kept
    integral (the library only ever adds 1 to a version). *)
Inductive JsValue : Type :=
| JsUndefined
| JsNull
| JsBool (b : bool)
| JsNumber (z : Z)
| JsString (s : string)
| JsObject (addr : nat).

Definition JsValue_eq_dec (a b : JsValue) : {a = b} + {a <> b}.
Proof.
  decide equality;
    [ apply Bool.bool_dec | apply Z.eq_dec | apply string_dec | apply Nat.eq_dec ].
Defined.

(** [Object.is(a, b)]. *)
Definition Object_is (a b : JsValue) : bool :=
  if JsValue_eq_dec a b then true else false.

(** What a [throw] can carry here: [new Error(message)], the engine's
    [TypeError] for a property read on [undefined]/[null], or whatever a
    user-supplied selector throws. *)
Inductive JsError : Type :=
| Error (message : string)
| TypeError
| Thrown (payload : JsValue).

(** The outcome of evaluating an expression or calling a function. *)
Inductive Eval (A : Type) : Type :=
| Val (a : A)
| Raise (e : JsError).
Arguments Val {A} a.
Arguments Raise {A} e.

Definition bind {A B : Type} (m : Eval A) (k : A -> Eval B) : Eval B :=
  match m with
  | Val a => k a
  | Raise e => Raise e
  end.

Notation "x <- m ;; k" := (bind m (fun x => k))
  (at level 61, m at next level, right associativity).

(** The completion of a statement list inside a function body: control
    falls through, or the function returns, or an exception escapes. *)
Inductive Completion (A : Type) : Type :=
| Normal
| Return (a : A)
| Throw (e : JsError).
Arguments Normal {A}.
Arguments Return {A} a.
Arguments Throw {A} e.

(** [try { body } catch (e) { /* ignored */ }]. *)
Definition try_catch_ignored {A : Type} (body : Completion A) : Completion A :=
  match body with
  | Throw _ => Normal
  | c => c
  end.

(** A selector is user code: it yields a selection or throws. *)
Definition Selector : Type := JsValue -> Eval JsValue.

(** [const identity = x => x]. *)
Definition identity : Selector := fun x => Val x.

(* ================================================================== *)
(** ** Notifications and reducer state *)

(** [action: [number] | [number, Value]]. *)
Inductive Action : Type :=
| VersionOnly (version : Z)
| VersionAndValue (version : Z) (value : JsValue).

(** [next[0]] *)
Definition action_0 (next : Action) : Z :=
  match next with
  | VersionOnly k => k
  | VersionAndValue k _ => k
  end.

(** [next.length] *)
Definition action_length (next : Action) : Z :=
  match next with
  | VersionOnly _ => 1
  | VersionAndValue _ _ => 2
  end.

(** [next[1]] (reading past the end of a one-element tuple gives
    [undefined]). *)
Definition action_1 (next : Action) : JsValue :=
  match next with
  | VersionOnly _ => JsUndefined
  | VersionAndValue _ x => x
  end.

(** The reducer state [{ value, selected }].  It is an object, so it has an
    identity of its own besides its two fields: [state_ref] is the address
    the object literal was allocated at.  State objects are never mutated,
    so a reference can carry its fields along. *)
Record State : Type := mkState {
  state_ref : nat;
  state_value : JsValue;
  state_selected : JsValue;
}.

(** Reference identity of two state objects (what the host compares to
    decide whether a dispatch changed anything). *)
Definition same_object (a b : State) : bool := Nat.eqb (state_ref a) (state_ref b).

(** The allocator: the next unused address.  Evaluating an object literal
    takes that address and advances the allocator. *)
Definition Heap : Type := nat.

Definition allocated (h : Heap) (s : State) : Prop := (state_ref s < h)%nat.

Definition new_state (value selected : JsValue) (h : Heap) : State * Heap :=
  (mkState h value selected, S h).

(* ================================================================== *)
(** ** The reducer of [useContextSelector] *)

Section Reducer.

(** The variables the reducer closes over: the selector passed to the
    hook and the [version], [value] and [selected] the render read from
    the cell ([v.current], [n.current], [selector(value)]). *)
Variable selector : Selector.
Variable version : Z.
Variable value selected : JsValue.

(** The condition of the [if] inside the [try] block, with the
    short-circuits of [&&] and [||] written out:
    [next.length === 2 && (Object.is(prev.value, next[1])
       || Object.is(prev.selected, selector(next[1])))]. *)
Definition reducer_cond (prev : State) (next : Action) : Eval bool :=
  if negb (action_length next =? 2) then Val false
  else if Object_is (state_value prev) (action_1 next) then Val true
  else s <- selector (action_1 next) ;; Val (Object_is (state_selected prev) s).

(** The body of the [try] block: [if (cond) { return prev; }]. *)
Definition reducer_try (prev : State) (next : Action) : Completion State :=
  match reducer_cond prev next with
  | Raise e => Throw e
  | Val true => Return prev
  | Val false => Normal
  end.

(** The reducer.  It returns either [prev] itself or the fresh object
    [{ value, selected }]; the heap is advanced only by the literal. *)
Definition reducer (prev : State) (next : Action) (h : Heap) : Eval State * Heap :=
  if version <? action_0 next then
    match try_catch_ignored (reducer_try prev next) with
    | Return r => (Val r, h)                     (* do not update *)
    | Throw e => (Raise e, h)
    | Normal =>
        let (s, h') := new_state value selected h in
        (Val s, h')                              (* schedule update *)
    end
  else if Object_is (state_value prev) value || Object_is (state_selected prev) selected then
    (Val prev, h)                                (* bail out *)
  else
    let (s, h') := new_state value selected h in
    (Val s, h').

End Reducer.

(* ================================================================== *)
(** ** The cell carried by the context, and the environment *)

(** A listener is a [dispatch] (or [forceUpdate]) function; what matters of
    it is its identity in the [Set]. *)
Definition Listener : Type := nat.

(** The two update closures a cell can carry: the one [createProvider]
    builds, and [(f) => f()] of the default cell of [createContext]. *)
Inductive UpdateFn : Type :=
| ProviderUpdate
| DefaultUpdate.

(** [ContextValue<Value>[CONTEXT_VALUE]]: the refs [v] and [n] by their
    current contents, the [Set] [l] in insertion order, the closure [u].
    The version is a JavaScript number that starts at 0 or -1 and is only
    ever incremented: an exact integer up to 2^53, where [+= 1] stops
    changing it.  [bump_version] below adds exactly; [bump_version_js] adds
    as JavaScript does, and the two agree while the version is below 2^53
    ([run_js_exact]). *)
Record Cell : Type := mkCell {
  cell_v : JsValue;
  cell_n : Z;
  cell_l : list Listener;
  cell_u : UpdateFn;
}.

(** [createContext(defaultValue)]: the cell of a context without Provider. *)
Definition createContext (defaultValue : JsValue) : Cell :=
  mkCell defaultValue (-1) [] DefaultUpdate.

(** What [useContextOrig(context)] hands back: the object made by this
    library, which holds a cell under the private symbol [CONTEXT_VALUE], or
    the value of some other context, which cannot hold that symbol. *)
Inductive ContextOrigValue : Type :=
| Special (c : Cell)
| Foreign (x : JsValue).

(** [x[CONTEXT_VALUE]]: a property read throws on [undefined] and [null]
    and gives [undefined] (here [None]) on anything lacking the key. *)
Definition get_CONTEXT_VALUE (x : ContextOrigValue) : Eval (option Cell) :=
  match x with
  | Special c => Val (Some c)
  | Foreign JsUndefined | Foreign JsNull => Raise TypeError
  | Foreign _ => Val None
  end.

(** The part of the global environment the hooks look at. *)
Record Env : Type := mkEnv {
  process_is_object : bool;          (* typeof process === 'object' *)
  NODE_ENV : option string;          (* process.env.NODE_ENV *)
}.

(** [typeof process === 'object' && process.env.NODE_ENV !== 'production'] *)
Definition is_development (env : Env) : bool :=
  process_is_object env &&
  match NODE_ENV env with
  | Some s => negb (String.eqb s "production")
  | None => true
  end.

(** Destructuring [const { ... } = contextValue] throws on [undefined]. *)
Definition destructure (contextValue : option Cell) : Eval Cell :=
  match contextValue with
  | Some c => Val c
  | None => Raise TypeError
  end.

(** The guard shared by the hooks:
    [if (dev) { if (!contextValue) throw new Error(name + ' requires special context'); }] *)
Definition require_special (env : Env) (name : string) (contextValue : option Cell)
  : Eval unit :=
  if is_development env then
    match contextValue with
    | None => Raise (Error (name ++ " requires special context")%string)
    | Some _ => Val tt
    end
  else Val tt.

(** What one render of [useContextSelector] reads from the cell and keeps:
    the variables [version], [value] and [selected] its reducer closes over
    ([r_selected] is also what the hook returns). *)
Record Rendered : Type := mkRendered {
  r_version : Z;
  r_value : JsValue;
  r_selected : JsValue;
}.

(** [useContextSelector(context, selector)], up to the [useReducer] call. *)
Definition useContextSelector (env : Env) (context : ContextOrigValue)
    (selector : Selector) : Eval Rendered :=
  contextValue <- get_CONTEXT_VALUE context ;;
  _ <- require_special env "useContextSelector" contextValue ;;
  c <- destructure contextValue ;;
  let value := cell_v c in
  let version := cell_n c in
  selected <- selector value ;;
  Val (mkRendered version value selected).

(** The reducer this render passes to [useReducer]. *)
Definition reducer_of (selector : Selector) (r : Rendered)
  : State -> Action -> Heap -> Eval State * Heap :=
  reducer selector (r_version r) (r_value r) (r_selected r).

(** [useContext(context)] *)
Definition useContext (env : Env) (context : ContextOrigValue) : Eval Rendered :=
  useContextSelector env context identity.

(** [useContextUpdate(context)] *)
Definition useContextUpdate (env : Env) (context : ContextOrigValue) : Eval UpdateFn :=
  contextValue <- get_CONTEXT_VALUE context ;;
  _ <- require_special env "useContextUpdate" contextValue ;;
  c <- destructure contextValue ;;
  Val (cell_u c).

(* ================================================================== *)
(** ** The Provider, its update closure and its layout effect *)

(** The scheduler's priority levels ([scheduler] package). *)
Inductive Priority : Type :=
| ImmediatePriority
| UserBlockingPriority
| NormalPriority
| LowPriority
| IdlePriority.

(** One [listeners.forEach(listener => listener(action))]: the action, the
    listeners it was handed to in iteration order, and the scheduling
    context the calls were made in. *)
Record Broadcast : Type := mkBroadcast {
  bc_action : Action;
  bc_to : list Listener;
  bc_batch_depth : nat;
  bc_priority : Priority;
}.

Definition bc_version (b : Broadcast) : Z := action_0 (bc_action b).

(** Everything an update can touch: the cell; the dependency list the
    Provider's layout effect last ran with ([None] before its first run);
    the producer's own state, which it hands to the Provider as the prop
    [value]; the broadcasts made so far; the nesting depth of
    [batchedUpdates]; the scheduler's current priority. *)
Record World : Type := mkWorld {
  cell : Cell;
  deps : option JsValue;
  host : JsValue;
  log : list Broadcast;
  batch_depth : nat;
  priority : Priority;
}.

Definition set_cell (c : Cell) (w : World) : World :=
  mkWorld c (deps w) (host w) (log w) (batch_depth w) (priority w).
Definition set_deps (d : option JsValue) (w : World) : World :=
  mkWorld (cell w) d (host w) (log w) (batch_depth w) (priority w).
Definition set_host (x : JsValue) (w : World) : World :=
  mkWorld (cell w) (deps w) x (log w) (batch_depth w) (priority w).
Definition set_log (bs : list Broadcast) (w : World) : World :=
  mkWorld (cell w) (deps w) (host w) bs (batch_depth w) (priority w).
Definition set_batch_depth (d : nat) (w : World) : World :=
  mkWorld (cell w) (deps w) (host w) (log w) d (priority w).
Definition set_priority (p : Priority) (w : World) : World :=
  mkWorld (cell w) (deps w) (host w) (log w) (batch_depth w) p.

(** [versionRef.current += 1] with the addition exact, which it is as long
    as the version is below 2^53. *)
Definition bump_version (w : World) : World :=
  let c := cell w in
  set_cell (mkCell (cell_v c) (cell_n c + 1) (cell_l c) (cell_u c)) w.

(** [valueRef.current = value] *)
Definition assign_value (value : JsValue) (w : World) : World :=
  let c := cell w in
  set_cell (mkCell value (cell_n c) (cell_l c) (cell_u c)) w.

(** [listeners.forEach((listener) => listener(action))]: a listener only
    queues the action for its own reducer, it touches neither the cell nor
    the set, so the call is recorded and nothing else changes. *)
Definition forEach_listener (action : Action) (w : World) : World :=
  set_log (log w ++ [mkBroadcast action (cell_l (cell w)) (batch_depth w) (priority w)]) w.

(** Modelled from the spec: [batchedUpdates] of [./batchedUpdates], which is
    not among the sources; the spec (section 6) has it execute the callback
    so that state changes scheduled inside are rendered in one pass.  The
    callback runs one batch deeper and the depth is restored afterwards. *)
Definition batchedUpdates (callback : World -> World) (w : World) : World :=
  set_batch_depth (batch_depth w) (callback (set_batch_depth (S (batch_depth w)) w)).

(** [runWithPriority(priorityLevel, callback)] of the scheduler: the
    callback runs at that priority and the previous one is restored. *)
Definition runWithPriority (p : Priority) (callback : World -> World) (w : World) : World :=
  set_priority (priority w) (callback (set_priority p w)).

(** The [update] closure of [createProvider], over an arbitrary thunk. *)
Definition update_body (thunk : World -> World) (w : World) : World :=
  batchedUpdates (fun w =>
    let w := bump_version w in
    let w := forEach_listener (VersionOnly (cell_n (cell w))) w in
    thunk w) w.

(** Calling the [u] of a cell. *)
Definition call_update (u : UpdateFn) (thunk : World -> World) (w : World) : World :=
  match u with
  | ProviderUpdate => update_body thunk w
  | DefaultUpdate => thunk w                       (* (f) => f() *)
  end.

(** A thunk is producer code.  The refs and the listener set live in the
    Provider's closure, out of its reach: it can change the producer's own
    state, and it can call the context's update function again. *)
Inductive Thunk : Type :=
| SetState (f : JsValue -> JsValue)
| CallUpdate (t : Thunk)
| Seq (a b : Thunk).

Fixpoint run_thunk (t : Thunk) (w : World) : World :=
  match t with
  | SetState f => set_host (f (host w)) w
  | CallUpdate t' => call_update (cell_u (cell w)) (run_thunk t') w
  | Seq a b => run_thunk b (run_thunk a w)
  end.

(** [update(thunk)] for the closure built by [createProvider]. *)
Definition update (t : Thunk) (w : World) : World := update_body (run_thunk t) w.

(** The callback of the Provider's layout effect. *)
Definition provider_effect (value : JsValue) (w : World) : World :=
  let w := assign_value value w in
  let w := bump_version w in
  runWithPriority NormalPriority
    (fun w => forEach_listener (VersionAndValue (cell_n (cell w)) value) w) w.

(** The host compares a dependency list with [Object.is], item by item; an
    effect that has never run has no list to compare with. *)
Definition deps_changed (old : option JsValue) (value : JsValue) : bool :=
  match old with
  | None => true
  | Some x => negb (Object_is x value)
  end.

(** [useIsomorphicLayoutEffect(effect, [value])] at the commit of a
    Provider render with the prop [value]. *)
Definition provider_layout_effect (value : JsValue) (w : World) : World :=
  if deps_changed (deps w) value then provider_effect value (set_deps (Some value) w)
  else w.

(** The first render of a Provider with the prop [value]: fresh refs, an
    empty listener set, the update closure; the layout effect is pending. *)
Definition createProvider (value : JsValue) : World :=
  mkWorld (mkCell value 0 [] ProviderUpdate) None value [] 0%nat NormalPriority.

(** A context that is read without a Provider above: the default cell. *)
Definition unprovided (defaultValue : JsValue) (host0 : JsValue) : World :=
  mkWorld (createContext defaultValue) None host0 [] 0%nat NormalPriority.

(** The host renders the Provider with the producer's current state as the
    prop [value] and commits; layout effects run at immediate priority.
    Without a Provider there is nothing to render. *)
Definition commit (w : World) : World :=
  match cell_u (cell w) with
  | ProviderUpdate => runWithPriority ImmediatePriority (provider_layout_effect (host w)) w
  | DefaultUpdate => w
  end.

(** [listeners.add(dispatch)] and [listeners.delete(dispatch)]. *)
Definition Set_add (x : Listener) (s : list Listener) : list Listener :=
  if existsb (Nat.eqb x) s then s else s ++ [x].
Definition Set_delete (x : Listener) (s : list Listener) : list Listener :=
  filter (fun y => negb (Nat.eqb x y)) s.

Definition set_listeners (ls : list Listener) (w : World) : World :=
  let c := cell w in
  set_cell (mkCell (cell_v c) (cell_n c) ls (cell_u c)) w.

(** What can happen to a mounted context, one event at a time. *)
Inductive Event : Type :=
| Updates (t : Thunk)          (* a producer calls the function useContextUpdate gave it *)
| SetsState (f : JsValue -> JsValue)  (* the producer changes its state without update *)
| Commits                      (* the host re-renders the Provider and commits *)
| Subscribes (l : Listener)    (* a consumer's layout effect *)
| Unsubscribes (l : Listener). (* its cleanup *)

Definition step (w : World) (e : Event) : World :=
  match e with
  | Updates t => call_update (cell_u (cell w)) (run_thunk t) w
  | SetsState f => set_host (f (host w)) w
  | Commits => commit w
  | Subscribes l => set_listeners (Set_add l (cell_l (cell w))) w
  | Unsubscribes l => set_listeners (Set_delete l (cell_l (cell w))) w
  end.

Definition run (es : list Event) (w : World) : World := fold_left step es w.

(** How many times a thunk calls update, and what it does to the
    producer's state. *)
Fixpoint update_calls (t : Thunk) : nat :=
  match t with
  | SetState _ => 0
  | CallUpdate t' => S (update_calls t')
  | Seq a b => update_calls a + update_calls b
  end.

Fixpoint thunk_host (t : Thunk) (x : JsValue) : JsValue :=
  match t with
  | SetState f => f x
  | CallUpdate t' => thunk_host t' x
  | Seq a b => thunk_host b (thunk_host a x)
  end.

(* ================================================================== *)
(** ** Invariants and sample runs used in the statements below *)

(** [count_from k n] is [k+1; k+2; ...; k+n]. *)
Fixpoint count_from (k : Z) (n : nat) : list Z :=
  match n with
  | O => []
  | S n' => (k + 1) :: count_from (k + 1) n'
  end.

(** A phase-1 broadcast made while the thunk of an update on [w] runs. *)
Definition phase1_of (w : World) (b : Broadcast) : Prop :=
  bc_action b = VersionOnly (bc_version b)
  /\ bc_to b = cell_l (cell w)
  /\ (batch_depth w < bc_batch_depth b)%nat.

(** The invariant of a Provider's cell: its update closure is the
    Provider's, the version counts the broadcasts made so far, and the
    broadcasts carry 1, 2, 3, ... in the order they were made. *)
Definition provided (w : World) : Prop :=
  cell_u (cell w) = ProviderUpdate
  /\ cell_n (cell w) = Z.of_nat (length (log w))
  /\ map bc_version (log w) = count_from 0 (length (log w)).

(** The invariant of a context read without a Provider. *)
Definition defaulted (w : World) : Prop :=
  cell_u (cell w) = DefaultUpdate /\ cell_n (cell w) = -1 /\ log w = [].

(** A selector written for objects that throws on anything else. *)
Definition brittle_selector : Selector :=
  fun x =>
    match x with
    | JsObject _ => Val (JsNumber 0)
    | _ => Raise TypeError
    end.

(** A consumer subscribes, the Provider mounts with the object at address
    1, a producer updates to the object at address 2, the host commits. *)
Definition example_events : list Event :=
  [Subscribes 5%nat; Commits; Updates (SetState (fun _ => JsObject 2)); Commits].

Definition example_world : World := run example_events (createProvider (JsObject 1)).

(** A mounted Provider holding the object at address 1, with one
    subscribed consumer. *)
Definition mounted_world : World :=
  run [Subscribes 5%nat; Commits] (createProvider (JsObject 1)).

(** A thunk that changes nothing. *)
Definition noop_thunk : Thunk := SetState (fun x => x).

(* ================================================================== *)
(** ** The context object, the bridge and the host's context lookup *)

(** The object a context is: which context it is, the value given to
    [createContextOrig] (what [useContextOrig] returns without a Provider
    above), the original Provider kept under the private symbol
    [ORIGINAL_PROVIDER] (a Provider is identified by its context; [None] is
    [undefined]), and whether [Consumer] is still there. *)
Record ContextObject : Type := mkContextObject {
  context_id : nat;
  context_default : ContextOrigValue;
  context_ORIGINAL_PROVIDER : option nat;
  context_Consumer : bool;
}.

(** The object [createContext(defaultValue)] returns; [createContext] above
    is the cell it puts inside. *)
Definition createContext_object (id : nat) (defaultValue : JsValue) : ContextObject :=
  mkContextObject id (Special (createContext defaultValue)) (Some id) false.


(** The Providers above a component, innermost first, each with the value
    it provides. *)
Definition Providers : Type := list (nat * ContextOrigValue).

(** [useContextOrig(context)]: the value of the nearest Provider of that
    context, or the context's default. *)
Definition useContextOrig (above : Providers) (context : ContextObject) : ContextOrigValue :=
  match find (fun p => Nat.eqb (fst p) (context_id context)) above with
  | Some p => snd p
  | None => context_default context
  end.

(** [createElement(type, { value }, children)] for a Provider type. *)
Record Element : Type := mkElement {
  element_type : option nat;
  element_value : ContextOrigValue;
}.

(** What the children of a rendered Provider element have above them; an
    element whose type is [undefined] cannot be rendered. *)
Definition children_providers (el : Element) (above : Providers) : option Providers :=
  match element_type el with
  | Some id => Some ((id, element_value el) :: above)
  | None => None
  end.

(** The element the Provider of [createProvider] returns:
    [createElement(ProviderOrig, { value: contextValue.current }, children)]. *)
Definition Provider_element (context : ContextObject) (w : World) : Element :=
  mkElement (context_ORIGINAL_PROVIDER context) (Special (cell w)).

(** [BridgeProvider({ context, value, children })] *)
Definition BridgeProvider (env : Env) (context : ContextObject) (value : ContextOrigValue)
  : Eval Element :=
  let ProviderOrig := context_ORIGINAL_PROVIDER context in
  _ <- (if is_development env then
          match ProviderOrig with
          | None => Raise (Error "BridgeProvider requires special context")
          | Some _ => Val tt
          end
        else Val tt) ;;
  Val (mkElement ProviderOrig value).

(** [useBridgeValue(context)], up to the [useReducer] call; its layout
    effect subscribes [forceUpdate] to the cell's listeners. *)
Definition useBridgeValue (env : Env) (above : Providers) (context : ContextObject)
  : Eval ContextOrigValue :=
  let bridgeValue := useContextOrig above context in
  contextValue <- get_CONTEXT_VALUE bridgeValue ;;
  _ <- require_special env "useBridgeValue" contextValue ;;
  _ <- destructure contextValue ;;
  Val bridgeValue.

(* ================================================================== *)
(** ** Bookkeeping for the properties of runs *)

(** What an event makes of the listener set. *)
Definition listeners_after (e : Event) (s : list Listener) : list Listener :=
  match e with
  | Subscribes l => Set_add l s
  | Unsubscribes l => Set_delete l s
  | _ => s
  end.

(** The value carried by the most recent phase-2 broadcast, [acc] if there
    is none. *)
Definition latest_value (bs : list Broadcast) (acc : JsValue) : JsValue :=
  fold_left (fun acc b =>
               match bc_action b with
               | VersionAndValue _ x => x
               | VersionOnly _ => acc
               end) bs acc.

(** The host applies the actions queued for a [useReducer] hook in order,
    each to the state the previous one gave. *)
Fixpoint reduce_all (reduce : State -> Action -> Heap -> Eval State * Heap)
    (prev : State) (actions : list Action) (h : Heap) : Eval State * Heap :=
  match actions with
  | [] => (Val prev, h)
  | a :: rest =>
      match reduce prev a h with
      | (Val s, h') => reduce_all reduce s rest h'
      | (Raise e, h') => (Raise e, h')
      end
  end.

(** How a broadcast was scheduled: phase 1 inside a batch, phase 2 at
    normal priority. *)
Definition well_scheduled (b : Broadcast) : Prop :=
  match bc_action b with
  | VersionOnly _ => (0 < bc_batch_depth b)%nat
  | VersionAndValue _ _ => bc_priority b = NormalPriority
  end.

(* ================================================================== *)
(** ** The version as the JavaScript number it is *)

(** 2^53: up to here every integer is a JavaScript number. *)
Definition two_53 : Z := 9007199254740992.

(** [x + 1] on JavaScript numbers, for an integral number [x].  Between
    -2^53 and 2^53 the sum is a number again.  From 2^53 on the numbers are
    2 apart up to 2^54 and the sum lies halfway between two of them: it
    rounds to the one with the even significand, so [2^53 + 1] is [2^53].
    Beyond 2^54 the sum rounds back to [x]. *)
Definition js_add1 (x : Z) : Z :=
  if (- two_53 <=? x) && (x <? two_53) then x + 1
  else if Z.abs x <? 2 * two_53 then (if Z.even (x / 2) then x else x + 2)
  else x.

(** [versionRef.current += 1] *)
Definition bump_version_js (w : World) : World :=
  let c := cell w in
  set_cell (mkCell (cell_v c) (js_add1 (cell_n c)) (cell_l c) (cell_u c)) w.

(** The [update] closure of [createProvider], over an arbitrary thunk. *)
Definition update_body_js (thunk : World -> World) (w : World) : World :=
  batchedUpdates (fun w =>
    let w := bump_version_js w in
    let w := forEach_listener (VersionOnly (cell_n (cell w))) w in
    thunk w) w.

Definition call_update_js (u : UpdateFn) (thunk : World -> World) (w : World) : World :=
  match u with
  | ProviderUpdate => update_body_js thunk w
  | DefaultUpdate => thunk w
  end.

Fixpoint run_thunk_js (t : Thunk) (w : World) : World :=
  match t with
  | SetState f => set_host (f (host w)) w
  | CallUpdate t' => call_update_js (cell_u (cell w)) (run_thunk_js t') w
  | Seq a b => run_thunk_js b (run_thunk_js a w)
  end.

Definition update_js (t : Thunk) (w : World) : World := update_body_js (run_thunk_js t) w.

(** The callback of the Provider's layout effect. *)
Definition provider_effect_js (value : JsValue) (w : World) : World :=
  let w := assign_value value w in
  let w := bump_version_js w in
  runWithPriority NormalPriority
    (fun w => forEach_listener (VersionAndValue (cell_n (cell w)) value) w) w.

Definition provider_layout_effect_js (value : JsValue) (w : World) : World :=
  if deps_changed (deps w) value then provider_effect_js value (set_deps (Some value) w)
  else w.

Definition commit_js (w : World) : World :=
  match cell_u (cell w) with
  | ProviderUpdate => runWithPriority ImmediatePriority (provider_layout_effect_js (host w)) w
  | DefaultUpdate => w
  end.

Definition step_js (w : World) (e : Event) : World :=
  match e with
  | Updates t => call_update_js (cell_u (cell w)) (run_thunk_js t) w
  | SetsState f => set_host (f (host w)) w
  | Commits => commit_js w
  | Subscribes l => set_listeners (Set_add l (cell_l (cell w))) w
  | Unsubscribes l => set_listeners (Set_delete l (cell_l (cell w))) w
  end.

Definition run_js (es : list Event) (w : World) : World := fold_left step_js es w.

(* ================================================================== *)
(** * Properties of the reducer *)

Lemma Object_is_true (a b : JsValue) : Object_is a b = true <-> a = b.
Proof.
  unfold Object_is. destruct (JsValue_eq_dec a b); split; congruence.
Qed.

Lemma Object_is_false (a b : JsValue) : Object_is a b = false <-> a <> b.
Proof.
  unfold Object_is. destruct (JsValue_eq_dec a b); split; congruence.
Qed.

Lemma Object_is_refl (a : JsValue) : Object_is a a = true.
Proof. now apply Object_is_true. Qed.

(** An object literal evaluated now is no object that existed before. *)
Lemma new_state_distinct (h : Heap) (prev : State) (value selected : JsValue) :
  allocated h prev -> same_object (mkState h value selected) prev = false.
Proof.
  unfold allocated, same_object. cbn. intros Hlt.
  apply Nat.eqb_neq. lia.
Qed.

Lemma same_object_refl (s : State) : same_object s s = true.
Proof. unfold same_object. apply Nat.eqb_refl. Qed.

Section ReducerFacts.

Variable selector : Selector.
Variable version : Z.
Variable value selected : JsValue.

(** After the [catch] nothing is left to escape. *)
Lemma try_catch_ignored_no_throw (prev : State) (next : Action) (e : JsError) :
  try_catch_ignored (reducer_try selector prev next) <> Throw e.
Proof.
  destruct (reducer_try selector prev next); cbn; congruence.
Qed.

(** The reducer has two outcomes only. *)
Lemma reducer_cases (prev : State) (next : Action) (h : Heap) :
  reducer selector version value selected prev next h = (Val prev, h) \/
  reducer selector version value selected prev next h = (Val (mkState h value selected), S h).
Proof.
  unfold reducer, new_state.
  destruct (version <? action_0 next).
  - pose proof (try_catch_ignored_no_throw prev next) as Hno.
    destruct (try_catch_ignored (reducer_try selector prev next)) as [|r|e] eqn:Htry.
    + now right.
    + left. unfold reducer_try in Htry.
      destruct (reducer_cond selector prev next) as [[|]|]; cbn in Htry; congruence.
    + now destruct (Hno e).
  - destruct (Object_is (state_value prev) value || Object_is (state_selected prev) selected);
      [now left | now right].
Qed.

(** The newer-version branch on a phase-2 notification, as one equation. *)
Lemma reducer_newer_value (prev : State) (v : Z) (newValue : JsValue) (h : Heap) :
  version < v ->
  reducer selector version value selected prev (VersionAndValue v newValue) h =
    if Object_is (state_value prev) newValue ||
       match selector newValue with
       | Val s => Object_is (state_selected prev) s
       | Raise _ => false
       end
    then (Val prev, h)
    else (Val (mkState h value selected), S h).
Proof.
  intros Hlt. unfold reducer, reducer_try, reducer_cond, new_state. cbn.
  apply Z.ltb_lt in Hlt. rewrite Hlt.
  destruct (Object_is (state_value prev) newValue); cbn; [reflexivity|].
  destruct (selector newValue) as [s|e]; cbn; [|reflexivity].
  destruct (Object_is (state_selected prev) s); reflexivity.
Qed.

(** The newer-version branch on a phase-1 notification. *)
Lemma reducer_newer_version_only (prev : State) (v : Z) (h : Heap) :
  version < v ->
  reducer selector version value selected prev (VersionOnly v) h = (Val (mkState h value selected), S h).
Proof.
  intros Hlt. unfold reducer, reducer_try, reducer_cond, new_state. cbn.
  apply Z.ltb_lt in Hlt. now rewrite Hlt.
Qed.

(** The branch for a notification that is not newer. *)
Lemma reducer_not_newer (prev : State) (next : Action) (h : Heap) :
  action_0 next <= version ->
  reducer selector version value selected prev next h =
    if Object_is (state_value prev) value || Object_is (state_selected prev) selected
    then (Val prev, h)
    else (Val (mkState h value selected), S h).
Proof.
  intros Hle. unfold reducer, new_state.
  destruct (version <? action_0 next) eqn:Hlt; [apply Z.ltb_lt in Hlt; lia|].
  reflexivity.
Qed.

End ReducerFacts.

(** C4, as the code has it.  On [VersionAndValue(v, newValue)] with [v]
    above the version the render saw, the reducer returns [prev] itself when
    [newValue] is identical to [prev.value] or the selector yields, for
    [newValue], a result identical to [prev.selected].  In every other case,
    a throwing selector included, it returns a new object, distinct from
    [prev], whose fields are the [value] and [selected] of the render that
    built the reducer, not the notification's. *)
Theorem reducer_newer_value_bails_or_adopts_render_read
    (selector : Selector) (version : Z) (value selected : JsValue)
    (prev : State) (v : Z) (newValue : JsValue) (h : Heap) :
  version < v ->
  allocated h prev ->
  let bail :=
    Object_is (state_value prev) newValue ||
    match selector newValue with
    | Val s => Object_is (state_selected prev) s
    | Raise _ => false
    end in
  let fresh := mkState h value selected in
  reducer selector version value selected prev (VersionAndValue v newValue) h =
    (if bail then (Val prev, h) else (Val fresh, S h))
  /\ same_object fresh prev = false
  /\ state_value fresh = value
  /\ state_selected fresh = selected.
Proof.
  intros Hlt Halloc bail fresh. repeat split.
  - now apply reducer_newer_value.
  - now apply new_state_distinct.
Qed.

Lemma reducer_newer_value_bails_or_adopts_render_read_witness :
  reducer identity 1 (JsNumber 0) (JsNumber 0)
    (mkState 0 (JsNumber 0) (JsNumber 0)) (VersionAndValue 2 (JsNumber 0)) 1%nat =
    (Val (mkState 0 (JsNumber 0) (JsNumber 0)), 1%nat)
  /\ same_object (mkState 1 (JsNumber 0) (JsNumber 0))
       (mkState 0 (JsNumber 0) (JsNumber 0)) = false
  /\ JsNumber 0 = JsNumber 0
  /\ JsNumber 0 = JsNumber 0.
Proof.
  apply (reducer_newer_value_bails_or_adopts_render_read identity 1 (JsNumber 0) (JsNumber 0)
           (mkState 0 (JsNumber 0) (JsNumber 0)) 2 (JsNumber 0) 1%nat).
  - lia.
  - unfold allocated; cbn; lia.
Defined.

(** C4, as the claim words it, fails.  A consumer of the whole value
    rendered [0] at version 1 and holds the state [{0, 0}]; the phase-2
    notification [[2, 1]] arrives.  Neither identity test holds, and the
    state the reducer returns still holds [0] and [0], not the [1] carried
    by the notification. *)
Lemma reducer_adopts_notification_counterexample :
  let prev := mkState 0 (JsNumber 0) (JsNumber 0) in
  let next := VersionAndValue 2 (JsNumber 1) in
  1 < action_0 next
  /\ Object_is (state_value prev) (action_1 next) = false
  /\ identity (action_1 next) = Val (JsNumber 1)
  /\ Object_is (state_selected prev) (JsNumber 1) = false
  /\ reducer identity 1 (JsNumber 0) (JsNumber 0) prev next 1%nat =
       (Val (mkState 1 (JsNumber 0) (JsNumber 0)), 2%nat)
  /\ state_value (mkState 1 (JsNumber 0) (JsNumber 0)) <> action_1 next
  /\ Val (state_selected (mkState 1 (JsNumber 0) (JsNumber 0))) <> identity (action_1 next).
Proof.
  cbv zeta. repeat apply conj; try (vm_compute; reflexivity); try discriminate.
Qed.

(** A successful render against a cell keeps what it read from it. *)
Lemma useContextSelector_reads_cell
    (env : Env) (c : Cell) (selector : Selector) (r : Rendered) :
  useContextSelector env (Special c) selector = Val r ->
  r_version r = cell_n c
  /\ r_value r = cell_v c
  /\ selector (cell_v c) = Val (r_selected r).
Proof.
  intros Hrender.
  unfold useContextSelector in Hrender. cbn in Hrender.
  destruct (require_special env "useContextSelector" (Some c)); cbn in Hrender;
    [|discriminate].
  destruct (selector (cell_v c)) as [sel|e]; cbn in Hrender; [|discriminate].
  injection Hrender as <-. repeat split.
Qed.

(** C5, as the code has it.  A render of [useContextSelector] read the cell
    [c]; its reducer then receives [VersionOnly(v)] with [v] above the
    version read.  Whatever [prev] is, and whatever the cell holds by then,
    the reducer returns a newly allocated object, distinct from [prev],
    holding the value that render read from the cell and the selector's
    result for it. *)
Theorem reducer_version_only_forces_update
    (env : Env) (c : Cell) (selector : Selector) (r : Rendered)
    (prev : State) (v : Z) (h : Heap) :
  useContextSelector env (Special c) selector = Val r ->
  cell_n c < v ->
  allocated h prev ->
  exists s : State,
    reducer_of selector r prev (VersionOnly v) h = (Val s, S h)
    /\ same_object s prev = false
    /\ ~ allocated h s
    /\ state_value s = cell_v c
    /\ selector (cell_v c) = Val (state_selected s).
Proof.
  intros Hrender Hlt Halloc.
  destruct (useContextSelector_reads_cell env c selector r Hrender) as (Hn & Hv & Hsel).
  exists (mkState h (r_value r) (r_selected r)). unfold reducer_of.
  repeat apply conj.
  - apply reducer_newer_version_only. lia.
  - now apply new_state_distinct.
  - unfold allocated. cbn. lia.
  - exact Hv.
  - exact Hsel.
Qed.

Lemma reducer_version_only_forces_update_witness :
  exists s : State,
    reducer_of identity (mkRendered 1 (JsObject 7) (JsObject 7))
      (mkState 0 (JsObject 7) (JsObject 7)) (VersionOnly 2) 1%nat = (Val s, 2%nat)
    /\ same_object s (mkState 0 (JsObject 7) (JsObject 7)) = false
    /\ ~ allocated 1%nat s
    /\ state_value s = JsObject 7
    /\ identity (JsObject 7) = Val (state_selected s).
Proof.
  apply (reducer_version_only_forces_update (mkEnv true None)
           (mkCell (JsObject 7) 1 [0%nat] ProviderUpdate) identity
           (mkRendered 1 (JsObject 7) (JsObject 7))
           (mkState 0 (JsObject 7) (JsObject 7)) 2 1%nat).
  - reflexivity.
  - cbn. lia.
  - unfold allocated; cbn; lia.
Defined.

(** C6.  No call of the reducer ever throws, whatever the selector does;
    and when the selector throws on the value carried by a newer phase-2
    notification (so [prev.value] was not identical to it, or the selector
    would not have been called), the reducer returns a new object distinct
    from [prev]: the update is forced, not dropped, and [prev] is not
    returned. *)
Theorem reducer_swallows_selector_exception
    (selector : Selector) (version : Z) (value selected : JsValue)
    (prev : State) (h : Heap) :
  (forall next : Action, exists (s : State) (h' : Heap),
      reducer selector version value selected prev next h = (Val s, h'))
  /\ (forall (v : Z) (newValue : JsValue) (e : JsError),
        version < v ->
        allocated h prev ->
        Object_is (state_value prev) newValue = false ->
        selector newValue = Raise e ->
        reducer selector version value selected prev (VersionAndValue v newValue) h =
          (Val (mkState h value selected), S h)
        /\ same_object (mkState h value selected) prev = false).
Proof.
  split.
  - intros next.
    destruct (reducer_cases selector version value selected prev next h) as [H|H];
      rewrite H; eauto.
  - intros v newValue e Hlt Halloc Hval Hthrow. split.
    + rewrite reducer_newer_value by assumption.
      now rewrite Hval, Hthrow.
    + now apply new_state_distinct.
Qed.

Lemma reducer_swallows_selector_exception_witness :
  reducer brittle_selector 1 (JsObject 7) (JsNumber 0)
    (mkState 0 (JsObject 7) (JsNumber 0)) (VersionAndValue 2 JsNull) 1%nat =
    (Val (mkState 1 (JsObject 7) (JsNumber 0)), 2%nat)
  /\ same_object (mkState 1 (JsObject 7) (JsNumber 0))
       (mkState 0 (JsObject 7) (JsNumber 0)) = false.
Proof.
  apply (proj2 (reducer_swallows_selector_exception brittle_selector 1 (JsObject 7)
                  (JsNumber 0) (mkState 0 (JsObject 7) (JsNumber 0)) 1%nat)
           2 JsNull TypeError).
  - lia.
  - unfold allocated; cbn; lia.
  - reflexivity.
  - reflexivity.
Defined.

(** C7.  On a notification whose version is not above the one the render
    saw, the reducer returns [prev] itself exactly when [prev.value] is
    identical to the value read from the cell or [prev.selected] is
    identical to the selection computed from it; otherwise it returns the
    new object [{ value, selected }] of that read. *)
Theorem reducer_not_newer_bails_iff
    (selector : Selector) (version : Z) (value selected : JsValue)
    (prev : State) (next : Action) (h : Heap) :
  action_0 next <= version ->
  allocated h prev ->
  exists (s : State) (h' : Heap),
    reducer selector version value selected prev next h = (Val s, h')
    /\ (same_object s prev = true <->
        Object_is (state_value prev) value = true \/
        Object_is (state_selected prev) selected = true)
    /\ (same_object s prev = true -> s = prev /\ h' = h)
    /\ (same_object s prev = false -> s = mkState h value selected /\ h' = S h).
Proof.
  intros Hle Halloc.
  pose proof (new_state_distinct h prev value selected Halloc) as Hnew.
  rewrite reducer_not_newer by assumption.
  destruct (Object_is (state_value prev) value || Object_is (state_selected prev) selected)
    eqn:Hb.
  - exists prev, h. rewrite same_object_refl.
    apply orb_true_iff in Hb. repeat split; auto; discriminate.
  - exists (mkState h value selected), (S h). rewrite Hnew.
    apply orb_false_iff in Hb. destruct Hb as [Hv Hs].
    repeat split; auto; try discriminate.
    intros [H|H]; congruence.
Qed.

Lemma reducer_not_newer_bails_iff_witness :
  exists (s : State) (h' : Heap),
    reducer identity 2 (JsNumber 1) (JsNumber 1)
      (mkState 0 (JsNumber 0) (JsNumber 0)) (VersionAndValue 2 (JsNumber 1)) 1%nat = (Val s, h')
    /\ (same_object s (mkState 0 (JsNumber 0) (JsNumber 0)) = true <->
        Object_is (JsNumber 0) (JsNumber 1) = true \/
        Object_is (JsNumber 0) (JsNumber 1) = true)
    /\ (same_object s (mkState 0 (JsNumber 0) (JsNumber 0)) = true ->
        s = mkState 0 (JsNumber 0) (JsNumber 0) /\ h' = 1%nat)
    /\ (same_object s (mkState 0 (JsNumber 0) (JsNumber 0)) = false ->
        s = mkState 1 (JsNumber 1) (JsNumber 1) /\ h' = 2%nat).
Proof.
  apply (reducer_not_newer_bails_iff identity 2 (JsNumber 1) (JsNumber 1)
           (mkState 0 (JsNumber 0) (JsNumber 0)) (VersionAndValue 2 (JsNumber 1)) 1%nat).
  - cbn. lia.
  - unfold allocated; cbn; lia.
Defined.

(* ================================================================== *)
(** * Properties of the hooks' entry checks *)


(* ================================================================== *)
(** * Properties of the cell and its broadcasts *)

(** The world in which [update] runs its thunk: one batch deeper, version
    bumped, the phase-1 broadcast made. *)
Lemma update_body_unfold (thunk : World -> World) (w : World) :
  update_body thunk w =
    set_batch_depth (batch_depth w)
      (thunk (forEach_listener (VersionOnly (cell_n (cell w) + 1))
                (bump_version (set_batch_depth (S (batch_depth w)) w)))).
Proof. reflexivity. Qed.

(** What a thunk leaves alone. *)
Lemma run_thunk_frame (t : Thunk) :
  forall w : World,
    cell_v (cell (run_thunk t w)) = cell_v (cell w)
    /\ cell_l (cell (run_thunk t w)) = cell_l (cell w)
    /\ cell_u (cell (run_thunk t w)) = cell_u (cell w)
    /\ deps (run_thunk t w) = deps w
    /\ batch_depth (run_thunk t w) = batch_depth w
    /\ priority (run_thunk t w) = priority w
    /\ host (run_thunk t w) = thunk_host t (host w).
Proof.
  induction t as [f | t' IH | a IHa b IHb]; intros w.
  - cbn. tauto.
  - cbn [run_thunk thunk_host]. destruct (cell_u (cell w)) eqn:Hu; cbn [call_update].
    + rewrite update_body_unfold.
      specialize (IH (forEach_listener (VersionOnly (cell_n (cell w) + 1))
                        (bump_version (set_batch_depth (S (batch_depth w)) w)))).
      cbn in IH |- *. rewrite Hu in IH. tauto.
    + specialize (IH w). rewrite Hu in IH. tauto.
  - cbn [run_thunk thunk_host].
    destruct (IHa w) as (Hv & Hl & Hu & Hd & Hb & Hp & Hh).
    destruct (IHb (run_thunk a w)) as (Hv' & Hl' & Hu' & Hd' & Hb' & Hp' & Hh').
    repeat split; congruence.
Qed.

(** Each update call the thunk makes on a Provider's cell adds one to the
    version; on the default cell none does. *)
Lemma run_thunk_version (t : Thunk) :
  forall w : World,
    cell_n (cell (run_thunk t w)) =
      cell_n (cell w) +
      match cell_u (cell w) with
      | ProviderUpdate => Z.of_nat (update_calls t)
      | DefaultUpdate => 0
      end.
Proof.
  induction t as [f | t' IH | a IHa b IHb]; intros w.
  - cbn. destruct (cell_u (cell w)); lia.
  - cbn [run_thunk update_calls]. destruct (cell_u (cell w)) eqn:Hu; cbn [call_update].
    + rewrite update_body_unfold. cbn [set_batch_depth cell].
      rewrite IH. cbn. rewrite Hu. lia.
    + rewrite IH, Hu. lia.
  - cbn [run_thunk update_calls]. rewrite IHb, IHa.
    destruct (run_thunk_frame a w) as (_ & _ & Hu & _). rewrite Hu.
    destruct (cell_u (cell w)); lia.
Qed.

Lemma count_from_length (n : nat) : forall k, length (count_from k n) = n.
Proof. induction n as [|n IH]; intros k; cbn; [reflexivity | now rewrite IH]. Qed.

Lemma count_from_app (a : nat) :
  forall (k : Z) (b : nat),
    count_from k (a + b) = count_from k a ++ count_from (k + Z.of_nat a) b.
Proof.
  induction a as [|a IH]; intros k b.
  - cbn. now rewrite Z.add_0_r.
  - cbn [Nat.add count_from app]. rewrite IH. do 3 f_equal. lia.
Qed.

Lemma count_from_lower (n : nat) :
  forall (k x : Z), In x (count_from k n) -> k < x.
Proof.
  induction n as [|n IH]; intros k x Hin; cbn in Hin; [contradiction|].
  destruct Hin as [<- | Hin]; [lia|]. apply IH in Hin. lia.
Qed.

Lemma count_from_sorted (n : nat) : forall k, StronglySorted Z.lt (count_from k n).
Proof.
  induction n as [|n IH]; intros k; cbn; constructor.
  - apply IH.
  - apply Forall_forall. intros x Hin. now apply count_from_lower in Hin.
Qed.


Lemma sorted_lt_NoDup (l : list Z) : StronglySorted Z.lt l -> NoDup l.
Proof.
  induction 1 as [|x l Hs IH Hall]; constructor; [|assumption].
  intros Hin. rewrite Forall_forall in Hall. specialize (Hall x Hin). lia.
Qed.

(** The broadcasts made while a thunk runs: one per update call it makes
    on a Provider's cell (none on the default cell), all of them phase-1,
    handed to the whole listener set, inside the batch, and carrying the
    versions that follow the current one. *)
Lemma run_thunk_log (t : Thunk) :
  forall w : World, exists ext : list Broadcast,
    log (run_thunk t w) = log w ++ ext
    /\ length ext = match cell_u (cell w) with
                    | ProviderUpdate => update_calls t
                    | DefaultUpdate => O
                    end
    /\ map bc_version ext = count_from (cell_n (cell w)) (length ext)
    /\ Forall (phase1_of w) ext.
Proof.
  induction t as [f | t' IH | a IHa b IHb]; intros w.
  - exists []. cbn. rewrite app_nil_r. destruct (cell_u (cell w)); auto.
  - cbn [run_thunk update_calls]. destruct (cell_u (cell w)) eqn:Hu; cbn [call_update].
    + rewrite update_body_unfold.
      set (w1 := forEach_listener (VersionOnly (cell_n (cell w) + 1))
                   (bump_version (set_batch_depth (S (batch_depth w)) w))).
      destruct (IH w1) as (ext & Hlog & Hlen & Hver & Hall).
      exists (mkBroadcast (VersionOnly (cell_n (cell w) + 1)) (cell_l (cell w))
                (S (batch_depth w)) (priority w) :: ext).
      cbn [set_batch_depth log]. rewrite Hlog.
      subst w1. cbn in Hlen, Hver, Hall |- *. rewrite Hu in Hlen.
      repeat apply conj.
      * now rewrite <- app_assoc.
      * now rewrite Hlen.
      * f_equal. exact Hver.
      * constructor.
        -- unfold phase1_of, bc_version. cbn. repeat split. lia.
        -- eapply Forall_impl; [|exact Hall].
           intros b0 (Ha & Hto & Hd). unfold phase1_of. cbn in Hto, Hd.
           repeat split; auto. lia.
    + destruct (IH w) as (ext & Hlog & Hlen & Hver & Hall).
      rewrite Hu in Hlen. exists ext. auto.
  - cbn [run_thunk update_calls].
    destruct (IHa w) as (ea & Hla & Hna & Hva & Hfa).
    destruct (IHb (run_thunk a w)) as (eb & Hlb & Hnb & Hvb & Hfb).
    destruct (run_thunk_frame a w) as (_ & Hl & Hu & _ & Hd & _).
    pose proof (run_thunk_version a w) as Hn.
    rewrite Hu in Hnb.
    exists (ea ++ eb). repeat apply conj.
    + now rewrite Hlb, Hla, app_assoc.
    + rewrite length_app, Hna, Hnb. now destruct (cell_u (cell w)).
    + rewrite map_app, length_app, count_from_app, Hva, Hvb. do 2 f_equal.
      rewrite Hn, Hna. now destruct (cell_u (cell w)).
    + apply Forall_app. split; [assumption|].
      eapply Forall_impl; [|exact Hfb].
      intros b0 (Ha & Hto & Hd'). unfold phase1_of. rewrite <- Hl, <- Hd.
      repeat split; auto.
Qed.

Lemma provided_createProvider (value : JsValue) : provided (createProvider value).
Proof. repeat split. Qed.

Lemma provided_run_thunk (t : Thunk) (w : World) :
  provided w -> provided (run_thunk t w).
Proof.
  intros (Hu & Hn & Hlog).
  destruct (run_thunk_log t w) as (ext & He & Hlen & Hver & _).
  destruct (run_thunk_frame t w) as (_ & _ & Hu' & _).
  pose proof (run_thunk_version t w) as Hn'.
  rewrite Hu in Hlen, Hn'.
  repeat split.
  - congruence.
  - rewrite Hn', He, length_app, Hlen. lia.
  - rewrite He, map_app, length_app, count_from_app, Hlog, Hver. do 2 f_equal. lia.
Qed.

(** The commit of a Provider render, field by field. *)
Lemma commit_provider (w : World) :
  cell_u (cell w) = ProviderUpdate ->
  cell (commit w) =
    (if deps_changed (deps w) (host w)
     then mkCell (host w) (cell_n (cell w) + 1) (cell_l (cell w)) (cell_u (cell w))
     else cell w)
  /\ log (commit w) =
       log w ++
       (if deps_changed (deps w) (host w)
        then [mkBroadcast (VersionAndValue (cell_n (cell w) + 1) (host w))
                (cell_l (cell w)) (batch_depth w) NormalPriority]
        else [])
  /\ deps (commit w) = Some (host w)
  /\ host (commit w) = host w
  /\ batch_depth (commit w) = batch_depth w
  /\ priority (commit w) = priority w.
Proof.
  intros Hu. unfold commit. rewrite Hu.
  unfold runWithPriority, provider_layout_effect. cbn [set_priority deps host].
  destruct (deps_changed (deps w) (host w)) eqn:Hd.
  - cbn. rewrite Hu. repeat split.
  - cbn. rewrite app_nil_r. repeat split.
    destruct (deps w) as [x|]; cbn in Hd; [|discriminate].
    apply negb_false_iff, Object_is_true in Hd. now subst.
Qed.

Lemma commit_default (w : World) :
  cell_u (cell w) = DefaultUpdate -> commit w = w.
Proof. intros Hu. unfold commit. now rewrite Hu. Qed.

Lemma provided_commit (w : World) : provided w -> provided (commit w).
Proof.
  intros (Hu & Hn & Hlog).
  destruct (commit_provider w Hu) as (Hc & Hl & _).
  unfold provided. rewrite Hc, Hl.
  destruct (deps_changed (deps w) (host w)).
  - cbn [cell_u cell_n]. rewrite length_app, map_app, Nat.add_comm. cbn [length Nat.add].
    repeat split; [assumption | lia |].
    replace (S (length (log w))) with (length (log w) + 1)%nat by lia.
    rewrite count_from_app, Hlog. cbn. unfold bc_version. cbn. do 2 f_equal. lia.
  - rewrite app_nil_r. auto.
Qed.

Lemma provided_step (w : World) (e : Event) : provided w -> provided (step w e).
Proof.
  intros Hp. destruct e as [t | f | | l | l]; cbn [step].
  - change (provided (run_thunk (CallUpdate t) w)). now apply provided_run_thunk.
  - exact Hp.
  - now apply provided_commit.
  - exact Hp.
  - exact Hp.
Qed.

Lemma provided_run (es : list Event) :
  forall w : World, provided w -> provided (run es w).
Proof.
  induction es as [|e es IH]; intros w Hp; [assumption|].
  change (run (e :: es) w) with (run es (step w e)).
  apply IH. now apply provided_step.
Qed.

(** No event lowers the version. *)
Lemma step_version_le (w : World) (e : Event) :
  cell_n (cell w) <= cell_n (cell (step w e)).
Proof.
  destruct e as [t | f | | l | l]; cbn [step].
  - change (cell_n (cell w) <= cell_n (cell (run_thunk (CallUpdate t) w))).
    rewrite run_thunk_version. destruct (cell_u (cell w)); lia.
  - cbn. lia.
  - destruct (cell_u (cell w)) eqn:Hu.
    + destruct (commit_provider w Hu) as (Hc & _). rewrite Hc.
      destruct (deps_changed (deps w) (host w)); cbn; lia.
    + rewrite commit_default by assumption. lia.
  - cbn. lia.
  - cbn. lia.
Qed.

Lemma run_version_le (es : list Event) :
  forall w : World, cell_n (cell w) <= cell_n (cell (run es w)).
Proof.
  induction es as [|e es IH]; intros w.
  - cbn. lia.
  - change (run (e :: es) w) with (run es (step w e)).
    pose proof (step_version_le w e). specialize (IH (step w e)). lia.
Qed.

Lemma run_app (es1 es2 : list Event) (w : World) :
  run (es1 ++ es2) w = run es2 (run es1 w).
Proof. unfold run. apply fold_left_app. Qed.

(** On a Provider's cell, calling [update] is running a thunk that calls
    update. *)
Lemma update_as_thunk (t : Thunk) (w : World) :
  cell_u (cell w) = ProviderUpdate -> update t w = run_thunk (CallUpdate t) w.
Proof. intros Hu. cbn [run_thunk]. now rewrite Hu. Qed.

(** With the exact counter: take any Provider, from its first render on,
    through any sequence of update calls, state changes, commits,
    subscriptions and unsubscriptions.  Phase 1 of an update adds exactly
    one to the version
    (and the thunk adds one per update call of its own); phase 2, the
    layout effect, adds exactly one when it runs; no event ever lowers the
    version; the counter equals the number of broadcasts made since it was
    0; and the versions carried by the broadcasts, in the order they were
    made, are strictly increasing, hence pairwise distinct. *)
Lemma exact_version_strictly_increases (value0 : JsValue) (es : list Event) :
  let w := run es (createProvider value0) in
  (forall t : Thunk,
      cell_n (cell (update t w)) = cell_n (cell w) + 1 + Z.of_nat (update_calls t))
  /\ (forall (value : JsValue) (w0 : World),
         cell_n (cell (provider_effect value w0)) = cell_n (cell w0) + 1)
  /\ cell_n (cell (commit w)) =
       cell_n (cell w) + (if deps_changed (deps w) (host w) then 1 else 0)
  /\ (forall e : Event, cell_n (cell w) <= cell_n (cell (step w e)))
  /\ (forall es' : list Event,
         cell_n (cell w) <= cell_n (cell (run (es ++ es') (createProvider value0))))
  /\ cell_n (cell w) = Z.of_nat (length (log w))
  /\ StronglySorted Z.lt (map bc_version (log w))
  /\ NoDup (map bc_version (log w)).
Proof.
  intros w.
  assert (Hp : provided w) by (apply provided_run, provided_createProvider).
  destruct Hp as (Hu & Hn & Hlog).
  assert (Hsorted : StronglySorted Z.lt (map bc_version (log w)))
    by (rewrite Hlog; apply count_from_sorted).
  repeat apply conj.
  - intros t. rewrite update_as_thunk by assumption.
    rewrite run_thunk_version, Hu. cbn [update_calls]. lia.
  - intros value w0. reflexivity.
  - destruct (commit_provider w Hu) as (Hc & _). rewrite Hc.
    destruct (deps_changed (deps w) (host w)); cbn; lia.
  - intros e. apply step_version_le.
  - intros es'. rewrite run_app. apply run_version_le.
  - exact Hn.
  - exact Hsorted.
  - now apply sorted_lt_NoDup.
Qed.









Lemma defaulted_unprovided (defaultValue host0 : JsValue) :
  defaulted (unprovided defaultValue host0).
Proof. repeat split. Qed.

Lemma defaulted_run_thunk (t : Thunk) (w : World) :
  defaulted w -> defaulted (run_thunk t w).
Proof.
  intros (Hu & Hn & Hlog).
  destruct (run_thunk_log t w) as (ext & He & Hlen & _).
  destruct (run_thunk_frame t w) as (_ & _ & Hu' & _).
  pose proof (run_thunk_version t w) as Hn'.
  rewrite Hu in Hlen, Hn'. apply length_zero_iff_nil in Hlen. subst ext.
  repeat split; [congruence | lia | now rewrite He, Hlog].
Qed.

Lemma defaulted_step (w : World) (e : Event) : defaulted w -> defaulted (step w e).
Proof.
  intros Hd. destruct e as [t | f | | l | l]; cbn [step].
  - change (defaulted (run_thunk (CallUpdate t) w)). now apply defaulted_run_thunk.
  - exact Hd.
  - rewrite commit_default; [exact Hd | apply Hd].
  - exact Hd.
  - exact Hd.
Qed.

Lemma defaulted_run (es : list Event) :
  forall w : World, defaulted w -> defaulted (run es w).
Proof.
  induction es as [|e es IH]; intros w Hd; [assumption|].
  change (run (e :: es) w) with (run es (step w e)).
  apply IH. now apply defaulted_step.
Qed.

Lemma cell_eta (c c' : Cell) :
  cell_v c = cell_v c' -> cell_n c = cell_n c' -> cell_l c = cell_l c' ->
  cell_u c = cell_u c' -> c = c'.
Proof. destruct c, c'; cbn; congruence. Qed.

(** C10.  Take a context read without a Provider, after any events (the
    consumers subscribed to its default cell included).  [useContextUpdate]
    returns the default cell's [(f) => f()]; calling it with a thunk is
    running the thunk: the cell is what it was, its version still -1, no
    broadcast has been made, and the producer's state is what the thunk
    made it. *)
Theorem default_update_only_runs_thunk
    (env : Env) (defaultValue host0 : JsValue) (es : list Event) (t : Thunk) :
  let w := run es (unprovided defaultValue host0) in
  useContextUpdate env (Special (cell w)) = Val DefaultUpdate
  /\ call_update DefaultUpdate (run_thunk t) w = run_thunk t w
  /\ cell (run_thunk t w) = cell w
  /\ cell_n (cell (run_thunk t w)) = -1
  /\ log (run_thunk t w) = log w
  /\ log (run_thunk t w) = []
  /\ host (run_thunk t w) = thunk_host t (host w).
Proof.
  intros w.
  assert (Hd : defaulted w) by (apply defaulted_run, defaulted_unprovided).
  pose proof (defaulted_run_thunk t w Hd) as (Hu' & Hn' & Hlog').
  destruct Hd as (Hu & Hn & Hlog).
  destruct (run_thunk_frame t w) as (Hv & Hl & _ & _ & _ & _ & Hh).
  repeat apply conj.
  - unfold useContextUpdate, require_special. cbn.
    destruct (is_development env); cbn; now rewrite Hu.
  - reflexivity.
  - apply cell_eta; congruence.
  - exact Hn'.
  - congruence.
  - exact Hlog'.
  - exact Hh.
Qed.

(* ================================================================== *)
(** * Further properties of the hooks and of the bridge *)

(** The entry guard lets every cell through, in every environment. *)
Lemma require_special_cell (env : Env) (name : string) (c : Cell) :
  require_special env name (Some c) = Val tt.
Proof. unfold require_special. now destruct (is_development env). Qed.

(** X1.  Against a cell of this library the entry guard never fires, in any
    environment: [useContextSelector] reads [v.current] and [n.current] and
    yields the selector's result; what the selector throws during the
    render escapes to the caller (the reducer's [try] does not cover it).
    [useContext], the identity selection, therefore never throws and
    selects the value itself. *)
Theorem useContextSelector_on_cell (env : Env) (c : Cell) (selector : Selector) :
  useContextSelector env (Special c) selector =
    match selector (cell_v c) with
    | Val s => Val (mkRendered (cell_n c) (cell_v c) s)
    | Raise e => Raise e
    end
  /\ useContext env (Special c) = Val (mkRendered (cell_n c) (cell_v c) (cell_v c))
  /\ useContextUpdate env (Special c) = Val (cell_u c).
Proof.
  unfold useContext, useContextSelector, useContextUpdate, identity.
  cbn [get_CONTEXT_VALUE bind]. rewrite !require_special_cell. cbn.
  destruct (selector (cell_v c)); repeat split.
Qed.

(** X2.  [useBridgeValue] hands back, untouched, the very object the
    context provides when that object holds a cell; on any other context
    value it fails at the call, with the library's error when the guard is
    active and the value is not nullish, with a [TypeError] otherwise. *)
Theorem useBridgeValue_returns_or_fails
    (env : Env) (above : Providers) (context : ContextObject) :
  useBridgeValue env above context =
    match useContextOrig above context with
    | Special c => Val (Special c)
    | Foreign JsUndefined | Foreign JsNull => Raise TypeError
    | Foreign _ =>
        if is_development env
        then Raise (Error "useBridgeValue requires special context")
        else Raise TypeError
    end.
Proof.
  unfold useBridgeValue, require_special.
  destruct (useContextOrig above context) as [c|x]; cbn.
  - destruct (is_development env); reflexivity.
  - destruct x; cbn; try reflexivity; destruct (is_development env); reflexivity.
Qed.

Lemma useContextOrig_innermost
    (id : nat) (x : ContextOrigValue) (above : Providers) (context : ContextObject) :
  context_id context = id ->
  useContextOrig ((id, x) :: above) context = x.
Proof.
  intros <-. unfold useContextOrig. cbn. now rewrite Nat.eqb_refl.
Qed.

(** When [useBridgeValue] succeeds it returns what the context provides. *)
Lemma useBridgeValue_val
    (env : Env) (above : Providers) (context : ContextObject) (x : ContextOrigValue) :
  useBridgeValue env above context = Val x -> x = useContextOrig above context.
Proof.
  unfold useBridgeValue.
  destruct (get_CONTEXT_VALUE (useContextOrig above context)) as [cv|]; cbn; [|discriminate].
  destruct (require_special env "useBridgeValue" cv); cbn; [|discriminate].
  destruct (destructure cv); cbn; [|discriminate].
  now intros [= <-].
Qed.

(** X4.  Bridging.  Take a context made by [createContext] and a component
    for which [useBridgeValue] succeeds.  Feeding its result to
    [BridgeProvider] under any other stack of Providers, in any
    environment, gives an element whose children see exactly the context
    value the bridging component saw: [useContextSelector] and
    [useContextUpdate] answer there as they do at the source. *)
Theorem bridge_reexposes_same_cell
    (env : Env) (id : nat) (defaultValue : JsValue)
    (source target : Providers) (bridgeValue : ContextOrigValue) :
  let context := createContext_object id defaultValue in
  useBridgeValue env source context = Val bridgeValue ->
  exists (el : Element) (inside : Providers),
    BridgeProvider env context bridgeValue = Val el
    /\ children_providers el target = Some inside
    /\ useContextOrig inside context = useContextOrig source context
    /\ (forall selector : Selector,
           useContextSelector env (useContextOrig inside context) selector =
           useContextSelector env (useContextOrig source context) selector)
    /\ useContextUpdate env (useContextOrig inside context) =
       useContextUpdate env (useContextOrig source context).
Proof.
  intros context Hbridge.
  pose proof (useBridgeValue_val env source context bridgeValue Hbridge) as Hsame.
  exists (mkElement (Some id) bridgeValue), ((id, bridgeValue) :: target).
  assert (Hin : useContextOrig ((id, bridgeValue) :: target) context =
                useContextOrig source context).
  { rewrite useContextOrig_innermost by reflexivity. exact Hsame. }
  repeat apply conj.
  - unfold BridgeProvider. cbn. destruct (is_development env); reflexivity.
  - reflexivity.
  - exact Hin.
  - intros selector. now rewrite Hin.
  - now rewrite Hin.
Qed.

Lemma bridge_reexposes_same_cell_witness :
  exists (el : Element) (inside : Providers),
    BridgeProvider (mkEnv true None) (createContext_object 3 JsNull)
      (Special (cell example_world)) = Val el
    /\ children_providers el [(4%nat, Foreign JsNull)] = Some inside
    /\ useContextOrig inside (createContext_object 3 JsNull) =
       useContextOrig [(3%nat, Special (cell example_world))] (createContext_object 3 JsNull)
    /\ (forall selector : Selector,
           useContextSelector (mkEnv true None)
             (useContextOrig inside (createContext_object 3 JsNull)) selector =
           useContextSelector (mkEnv true None)
             (useContextOrig [(3%nat, Special (cell example_world))]
                (createContext_object 3 JsNull)) selector)
    /\ useContextUpdate (mkEnv true None)
         (useContextOrig inside (createContext_object 3 JsNull)) =
       useContextUpdate (mkEnv true None)
         (useContextOrig [(3%nat, Special (cell example_world))]
            (createContext_object 3 JsNull)).
Proof.
  apply (bridge_reexposes_same_cell (mkEnv true None) 3%nat JsNull
           [(3%nat, Special (cell example_world))] [(4%nat, Foreign JsNull)]
           (Special (cell example_world))).
  reflexivity.
Defined.

(** X5.  Which cell the hooks read.  With no Provider of the context above
    (whatever Providers of other contexts there are), they read the default
    cell of [createContext]: the default value at version -1, and the
    update function that only runs its thunk.  Under the context's
    Provider they read that Provider's cell, however many Providers of the
    same context lie further out. *)
Theorem hooks_read_nearest_cell
    (env : Env) (id : nat) (defaultValue : JsValue) (above : Providers)
    (selector : Selector) (w : World) :
  let context := createContext_object id defaultValue in
  (find (fun p => Nat.eqb (fst p) id) above = None ->
     useContextSelector env (useContextOrig above context) selector =
       match selector defaultValue with
       | Val s => Val (mkRendered (-1) defaultValue s)
       | Raise e => Raise e
       end
     /\ useContextUpdate env (useContextOrig above context) = Val DefaultUpdate)
  /\ (exists inside : Providers,
        children_providers (Provider_element context w) above = Some inside
        /\ useContextOrig inside context = Special (cell w)
        /\ useContextUpdate env (useContextOrig inside context) = Val (cell_u (cell w))).
Proof.
  intros context. split.
  - intros Hnone. subst context. unfold useContextOrig.
    cbn [context_id createContext_object]. rewrite Hnone.
    change (context_default (createContext_object id defaultValue))
      with (Special (createContext defaultValue)).
    unfold useContextSelector, useContextUpdate.
    cbn [get_CONTEXT_VALUE bind]. rewrite !require_special_cell. cbn.
    split; [|reflexivity]. now destruct (selector defaultValue).
  - exists ((id, Special (cell w)) :: above).
    rewrite useContextOrig_innermost by reflexivity.
    repeat split.
    unfold useContextUpdate. cbn [get_CONTEXT_VALUE bind].
    now rewrite require_special_cell.
Qed.

Lemma hooks_read_nearest_cell_witness :
  useContextSelector (mkEnv true None)
    (useContextOrig [(4%nat, Foreign JsNull)] (createContext_object 3 (JsNumber 8)))
    identity = Val (mkRendered (-1) (JsNumber 8) (JsNumber 8))
  /\ useContextUpdate (mkEnv true None)
       (useContextOrig [(4%nat, Foreign JsNull)] (createContext_object 3 (JsNumber 8)))
     = Val DefaultUpdate.
Proof.
  apply (proj1 (hooks_read_nearest_cell (mkEnv true None) 3%nat (JsNumber 8)
                  [(4%nat, Foreign JsNull)] identity example_world)).
  reflexivity.
Defined.

(* ================================================================== *)
(** * Further properties of runs *)

Lemma latest_value_app (a b : list Broadcast) (acc : JsValue) :
  latest_value (a ++ b) acc = latest_value b (latest_value a acc).
Proof. unfold latest_value. apply fold_left_app. Qed.

Lemma latest_value_phase1 (w : World) (ext : list Broadcast) (acc : JsValue) :
  Forall (phase1_of w) ext -> latest_value ext acc = acc.
Proof.
  induction 1 as [|b ext (Ha & _) _ IH]; [reflexivity|].
  unfold latest_value in *. cbn. now rewrite Ha.
Qed.

Lemma phase1_of_well_scheduled (w : World) (b : Broadcast) :
  phase1_of w b -> well_scheduled b.
Proof.
  intros (Ha & _ & Hd). unfold well_scheduled. rewrite Ha. lia.
Qed.

(** One event, seen from outside: the broadcasts it adds go to the listener
    set as it was, are scheduled as the source has it, and account for the
    whole change of version and value. *)
Lemma step_effect (w : World) (e : Event) :
  exists ext : list Broadcast,
    log (step w e) = log w ++ ext
    /\ Forall (fun b => bc_to b = cell_l (cell w)) ext
    /\ Forall well_scheduled ext
    /\ cell_l (cell (step w e)) = listeners_after e (cell_l (cell w))
    /\ cell_u (cell (step w e)) = cell_u (cell w)
    /\ cell_v (cell (step w e)) = latest_value ext (cell_v (cell w))
    /\ cell_n (cell (step w e)) = cell_n (cell w) + Z.of_nat (length ext).
Proof.
  destruct e as [t | f | | l | l].
  - change (step w (Updates t)) with (run_thunk (CallUpdate t) w).
    destruct (run_thunk_log (CallUpdate t) w) as (ext & He & Hlen & _ & Hall).
    destruct (run_thunk_frame (CallUpdate t) w) as (Hv & Hl & Hu & _).
    pose proof (run_thunk_version (CallUpdate t) w) as Hn.
    exists ext. repeat apply conj; try assumption.
    + eapply Forall_impl; [|exact Hall]. now intros b (_ & Hto & _).
    + eapply Forall_impl; [|exact Hall]. apply phase1_of_well_scheduled.
    + now rewrite (latest_value_phase1 w).
    + rewrite Hn, Hlen. destruct (cell_u (cell w)); lia.
  - exists []. cbn. rewrite app_nil_r. repeat split; auto. lia.
  - cbn [step listeners_after]. destruct (cell_u (cell w)) eqn:Hu.
    + destruct (commit_provider w Hu) as (Hc & Hl & _).
      rewrite Hc, Hl. destruct (deps_changed (deps w) (host w)).
      * eexists. split; [reflexivity|]. cbn.
        repeat split; auto; try lia; repeat constructor.
      * exists []. cbn. repeat split; auto. lia.
    + rewrite commit_default by assumption.
      exists []. cbn. rewrite app_nil_r. repeat split; auto. lia.
  - exists []. cbn. rewrite app_nil_r. repeat split; auto. lia.
  - exists []. cbn. rewrite app_nil_r. repeat split; auto. lia.
Qed.

(** The same for a whole run. *)
Lemma run_effect (es : list Event) :
  forall w : World, exists ext : list Broadcast,
    log (run es w) = log w ++ ext
    /\ Forall well_scheduled ext
    /\ cell_u (cell (run es w)) = cell_u (cell w)
    /\ cell_v (cell (run es w)) = latest_value ext (cell_v (cell w))
    /\ cell_n (cell (run es w)) = cell_n (cell w) + Z.of_nat (length ext).
Proof.
  induction es as [|e es IH]; intros w.
  - exists []. cbn. rewrite app_nil_r. repeat split; auto. lia.
  - change (run (e :: es) w) with (run es (step w e)).
    destruct (step_effect w e) as (e1 & Hl1 & _ & Hs1 & _ & Hu1 & Hv1 & Hn1).
    destruct (IH (step w e)) as (e2 & Hl2 & Hs2 & Hu2 & Hv2 & Hn2).
    exists (e1 ++ e2). repeat apply conj.
    + now rewrite Hl2, Hl1, app_assoc.
    + apply Forall_app. now split.
    + congruence.
    + now rewrite Hv2, Hv1, latest_value_app.
    + rewrite Hn2, Hn1, length_app. lia.
Qed.

(** Whatever holds of the listener set and is kept by every event of a run
    holds of the recipients of every broadcast of that run. *)
Lemma run_recipients (P : list Listener -> Prop) (es : list Event) :
  forall w : World,
    P (cell_l (cell w)) ->
    Forall (fun e => forall s, P s -> P (listeners_after e s)) es ->
    exists ext : list Broadcast,
      log (run es w) = log w ++ ext
      /\ Forall (fun b => P (bc_to b)) ext
      /\ P (cell_l (cell (run es w))).
Proof.
  induction es as [|e es IH]; intros w HP Hes.
  - exists []. cbn. rewrite app_nil_r. auto.
  - change (run (e :: es) w) with (run es (step w e)).
    inversion Hes as [|e' es' He Hes']; subst.
    destruct (step_effect w e) as (e1 & Hl1 & Hto & _ & Hls & _).
    destruct (IH (step w e)) as (e2 & Hl2 & Hall & HP'); [|assumption|].
    { rewrite Hls. now apply He. }
    exists (e1 ++ e2). repeat apply conj.
    + now rewrite Hl2, Hl1, app_assoc.
    + apply Forall_app. split; [|assumption].
      eapply Forall_impl; [|exact Hto]. intros b ->. exact HP.
    + exact HP'.
Qed.

Lemma Set_add_In (x y : Listener) (s : list Listener) :
  In y (Set_add x s) <-> y = x \/ In y s.
Proof.
  unfold Set_add. destruct (existsb (Nat.eqb x) s) eqn:Hex.
  - split; [auto|]. intros [->|H]; [|assumption].
    apply existsb_exists in Hex. destruct Hex as (z & Hz & Heq).
    apply Nat.eqb_eq in Heq. now subst.
  - rewrite in_app_iff. cbn. intuition.
Qed.

Lemma Set_delete_In (x y : Listener) (s : list Listener) :
  In y (Set_delete x s) <-> y <> x /\ In y s.
Proof.
  unfold Set_delete. rewrite filter_In, negb_true_iff, Nat.eqb_neq. intuition.
Qed.

Lemma Set_add_NoDup (x : Listener) (s : list Listener) :
  NoDup s -> NoDup (Set_add x s).
Proof.
  intros Hnd. unfold Set_add. destruct (existsb (Nat.eqb x) s) eqn:Hex; [assumption|].
  assert (Hnot : ~ In x s).
  { intros Hin. apply Bool.not_true_iff_false in Hex. apply Hex.
    apply existsb_exists. exists x. split; [assumption | apply Nat.eqb_refl]. }
  clear Hex. induction s as [|a s IH]; cbn.
  - constructor; [intros [] | constructor].
  - inversion Hnd as [|a' s' Ha Hs]; subst. constructor.
    + rewrite in_app_iff. cbn. intros [H | [H | []]]; [contradiction|].
      apply Hnot. now left.
    + apply IH; [assumption|]. intros H. apply Hnot. now right.
Qed.

Lemma Set_delete_NoDup (x : Listener) (s : list Listener) :
  NoDup s -> NoDup (Set_delete x s).
Proof. apply NoDup_filter. Qed.

Lemma Set_delete_absent (x : Listener) (s : list Listener) :
  ~ In x s -> Set_delete x s = s.
Proof.
  intros Hnot. unfold Set_delete. induction s as [|a s IH]; [reflexivity|].
  cbn. destruct (Nat.eqb x a) eqn:Heq.
  - apply Nat.eqb_eq in Heq. subst. exfalso. apply Hnot. now left.
  - cbn. rewrite IH; [reflexivity|]. intros H. apply Hnot. now right.
Qed.

(** X6.  The listener collection stays a set: starting from listeners
    without repetition, after any run the set has none, and no broadcast of
    the run hands its action to the same listener twice, however often the
    same listener was subscribed. *)
Theorem listeners_stay_a_set (w0 : World) (es : list Event) :
  NoDup (cell_l (cell w0)) ->
  exists ext : list Broadcast,
    log (run es w0) = log w0 ++ ext
    /\ Forall (fun b => NoDup (bc_to b)) ext
    /\ NoDup (cell_l (cell (run es w0))).
Proof.
  intros Hnd. apply run_recipients; [assumption|].
  apply Forall_forall. intros e _ s Hs.
  destruct e; cbn; auto using Set_add_NoDup, Set_delete_NoDup.
Qed.

Lemma listeners_stay_a_set_witness :
  exists ext : list Broadcast,
    log (run [Subscribes 5%nat; Subscribes 5%nat; Commits] (createProvider JsNull)) =
      log (createProvider JsNull) ++ ext
    /\ Forall (fun b => NoDup (bc_to b)) ext
    /\ NoDup (cell_l (cell (run [Subscribes 5%nat; Subscribes 5%nat; Commits]
                              (createProvider JsNull)))).
Proof.
  apply (listeners_stay_a_set (createProvider JsNull)
           [Subscribes 5%nat; Subscribes 5%nat; Commits]).
  cbn. constructor.
Defined.

(** X7.  Mounting and unmounting a consumer leaves no trace: subscribing a
    listener that was not in the set and unsubscribing it again gives back
    the very same world.  In any case a listener is gone after its cleanup,
    and a second cleanup changes nothing. *)
Theorem subscribe_then_unsubscribe (w : World) (l : Listener) :
  (~ In l (cell_l (cell w)) -> run [Subscribes l; Unsubscribes l] w = w)
  /\ ~ In l (cell_l (cell (step w (Unsubscribes l))))
  /\ step (step w (Unsubscribes l)) (Unsubscribes l) = step w (Unsubscribes l).
Proof.
  repeat apply conj.
  - destruct w as [[v n ls u] d h lg b p]. cbn [cell cell_l]. intros Hnot.
    assert (Hs : Set_delete l (Set_add l ls) = ls).
    { unfold Set_add. destruct (existsb (Nat.eqb l) ls) eqn:Hex.
      - apply existsb_exists in Hex. destruct Hex as (z & Hz & Heq).
        apply Nat.eqb_eq in Heq. subst. contradiction.
      - unfold Set_delete. rewrite filter_app. cbn. rewrite Nat.eqb_refl. cbn.
        rewrite app_nil_r. now apply Set_delete_absent. }
    unfold run, set_listeners, set_cell.
    cbn [fold_left step set_listeners set_cell cell cell_l cell_v cell_n cell_u
         deps host log batch_depth priority].
    now rewrite Hs.
  - cbn [step set_listeners set_cell cell cell_l]. rewrite Set_delete_In. tauto.
  - destruct w as [[v n ls u] d h lg b p].
    cbn [step set_listeners set_cell cell cell_l cell_v cell_n cell_u
         deps host log batch_depth priority].
    rewrite (Set_delete_absent l (Set_delete l ls)); [reflexivity|].
    rewrite Set_delete_In. tauto.
Qed.

Lemma subscribe_then_unsubscribe_witness :
  run [Subscribes 6%nat; Unsubscribes 6%nat] example_world = example_world.
Proof.
  apply (proj1 (subscribe_then_unsubscribe example_world 6%nat)).
  cbn. intros [H|[]]. discriminate H.
Defined.

(** X8.  A subscribed listener misses nothing: while no cleanup of it
    occurs, every broadcast of the run, phase 1 or phase 2, is handed to
    it, and it is still subscribed at the end. *)
Theorem subscribed_listener_gets_every_broadcast
    (w : World) (l : Listener) (es : list Event) :
  In l (cell_l (cell w)) ->
  Forall (fun e => e <> Unsubscribes l) es ->
  exists ext : list Broadcast,
    log (run es w) = log w ++ ext
    /\ Forall (fun b => In l (bc_to b)) ext
    /\ In l (cell_l (cell (run es w))).
Proof.
  intros Hin Hes. apply (run_recipients (fun s => In l s)); [assumption|].
  eapply Forall_impl; [|exact Hes].
  intros e Hne s Hs. destruct e as [t | f | | l' | l']; cbn; auto.
  - apply Set_add_In. now right.
  - apply Set_delete_In. split; [|assumption]. intros ->. now apply Hne.
Qed.

Lemma subscribed_listener_gets_every_broadcast_witness :
  exists ext : list Broadcast,
    log (run [Updates noop_thunk; Unsubscribes 6%nat; Commits] mounted_world) =
      log mounted_world ++ ext
    /\ Forall (fun b => In 5%nat (bc_to b)) ext
    /\ In 5%nat (cell_l (cell (run [Updates noop_thunk; Unsubscribes 6%nat; Commits]
                                 mounted_world))).
Proof.
  apply (subscribed_listener_gets_every_broadcast mounted_world 5%nat
           [Updates noop_thunk; Unsubscribes 6%nat; Commits]).
  - cbn. now left.
  - repeat constructor; discriminate.
Defined.

(** X9.  A listener that is not subscribed is never called: while no
    subscription of it occurs, no broadcast of the run is handed to it.
    After its cleanup a consumer hears nothing more. *)
Theorem unsubscribed_listener_gets_no_broadcast
    (w : World) (l : Listener) (es : list Event) :
  ~ In l (cell_l (cell w)) ->
  Forall (fun e => e <> Subscribes l) es ->
  exists ext : list Broadcast,
    log (run es w) = log w ++ ext
    /\ Forall (fun b => ~ In l (bc_to b)) ext
    /\ ~ In l (cell_l (cell (run es w))).
Proof.
  intros Hnot Hes. apply (run_recipients (fun s => ~ In l s)); [assumption|].
  eapply Forall_impl; [|exact Hes].
  intros e Hne s Hs. destruct e as [t | f | | l' | l']; cbn; auto.
  - rewrite Set_add_In. intros [->|H]; [now apply Hne | contradiction].
  - rewrite Set_delete_In. tauto.
Qed.

Lemma unsubscribed_listener_gets_no_broadcast_witness :
  exists ext : list Broadcast,
    log (run [Updates noop_thunk; Commits] (step mounted_world (Unsubscribes 5%nat))) =
      log (step mounted_world (Unsubscribes 5%nat)) ++ ext
    /\ Forall (fun b => ~ In 5%nat (bc_to b)) ext
    /\ ~ In 5%nat (cell_l (cell (run [Updates noop_thunk; Commits]
                                   (step mounted_world (Unsubscribes 5%nat))))).
Proof.
  apply (unsubscribed_listener_gets_no_broadcast
           (step mounted_world (Unsubscribes 5%nat)) 5%nat [Updates noop_thunk; Commits]).
  - cbn. intros [].
  - repeat constructor; discriminate.
Defined.

(** X10.  Only the layout effects of consumers touch the listener set:
    through any run without a subscription or a cleanup (updates, nested
    updates, state changes, commits), the set is the same, and so is the
    cell's update closure through any run at all. *)
Theorem only_subscriptions_change_listeners (w : World) (es : list Event) :
  cell_u (cell (run es w)) = cell_u (cell w)
  /\ (Forall (fun e => match e with
                       | Subscribes _ | Unsubscribes _ => False
                       | _ => True
                       end) es ->
      cell_l (cell (run es w)) = cell_l (cell w)).
Proof.
  split.
  - now destruct (run_effect es w) as (ext & _ & _ & Hu & _).
  - intros Hes.
    destruct (run_recipients (fun s => s = cell_l (cell w)) es w eq_refl)
      as (ext & _ & _ & Hl); [|exact Hl].
    eapply Forall_impl; [|exact Hes].
    intros e He s ->. destruct e; cbn; tauto.
Qed.

Lemma only_subscriptions_change_listeners_witness :
  cell_l (cell (run [Updates (CallUpdate noop_thunk); Commits] mounted_world)) =
  cell_l (cell mounted_world).
Proof.
  apply (proj2 (only_subscriptions_change_listeners mounted_world
                  [Updates (CallUpdate noop_thunk); Commits])).
  repeat constructor.
Defined.



(** X12.  The value in a Provider's cell is always the one carried by the
    most recent phase-2 broadcast, or the value of the first render while
    there has been none: a consumer that takes the value from a
    notification and one that reads the cell agree. *)
Theorem cell_holds_latest_broadcast_value (value0 : JsValue) (es : list Event) :
  let w := run es (createProvider value0) in
  cell_v (cell w) = latest_value (log w) value0.
Proof.
  intros w. destruct (run_effect es (createProvider value0)) as (ext & Hl & _ & _ & Hv & _).
  fold w in Hl, Hv. now rewrite Hv, Hl.
Qed.

(** X13.  Every broadcast of a Provider is scheduled as written: each
    phase-1 broadcast is made inside a batch, each phase-2 broadcast at
    normal priority although the layout effect itself runs at immediate
    priority. *)
Theorem broadcasts_well_scheduled (value0 : JsValue) (es : list Event) :
  Forall well_scheduled (log (run es (createProvider value0))).
Proof.
  destruct (run_effect es (createProvider value0)) as (ext & Hl & Hs & _).
  now rewrite Hl.
Qed.

Lemma deps_agree_step (w : World) (e : Event) :
  (forall x, deps w = Some x -> cell_v (cell w) = x) ->
  forall x, deps (step w e) = Some x -> cell_v (cell (step w e)) = x.
Proof.
  intros Hinv x Hx. destruct e as [t | f | | l | l].
  - change (step w (Updates t)) with (run_thunk (CallUpdate t) w) in *.
    destruct (run_thunk_frame (CallUpdate t) w) as (Hv & _ & _ & Hd & _).
    rewrite Hv. apply Hinv. congruence.
  - cbn in *. now apply Hinv.
  - cbn [step] in *. destruct (cell_u (cell w)) eqn:Hu.
    + destruct (commit_provider w Hu) as (Hc & _ & Hd & _).
      rewrite Hd in Hx. injection Hx as <-. rewrite Hc.
      destruct (deps_changed (deps w) (host w)) eqn:Hch; [reflexivity|].
      destruct (deps w) as [y|] eqn:Hy; cbn in Hch; [|discriminate].
      apply negb_false_iff, Object_is_true in Hch. subst. now apply Hinv.
    + rewrite commit_default in * by assumption. now apply Hinv.
  - cbn in *. now apply Hinv.
  - cbn in *. now apply Hinv.
Qed.

Lemma deps_agree_run (es : list Event) :
  forall w : World,
    (forall x, deps w = Some x -> cell_v (cell w) = x) ->
    forall x, deps (run es w) = Some x -> cell_v (cell (run es w)) = x.
Proof.
  induction es as [|e es IH]; intros w Hinv; [exact Hinv|].
  change (run (e :: es) w) with (run es (step w e)).
  apply IH. now apply deps_agree_step.
Qed.

(** A Provider whose effect has already run for the current value is left
    alone by a commit. *)
Lemma commit_settled (w : World) :
  cell_u (cell w) = ProviderUpdate -> deps w = Some (host w) -> commit w = w.
Proof.
  intros Hu Hd. unfold commit, runWithPriority, provider_layout_effect.
  rewrite Hu. cbn [set_priority deps host]. rewrite Hd. cbn [deps_changed].
  rewrite Object_is_refl. cbn. destruct w. reflexivity.
Qed.

(** After a commit the cell holds the producer's value. *)
Lemma commit_value (value0 : JsValue) (es : list Event) :
  cell_v (cell (commit (run es (createProvider value0)))) =
  host (run es (createProvider value0)).
Proof.
  set (w := run es (createProvider value0)).
  assert (Hp : provided w) by (apply provided_run, provided_createProvider).
  destruct (commit_provider w (proj1 Hp)) as (_ & _ & Hd & _).
  change (commit w) with (run [Commits] w). unfold w. rewrite <- run_app.
  apply deps_agree_run; [discriminate|].
  rewrite run_app. exact Hd.
Qed.

(** X14.  After every commit of a Provider, whatever happened before, the
    cell holds the value the Provider was rendered with, and a consumer of
    the whole value reads exactly that. *)
Theorem commit_installs_rendered_value (value0 : JsValue) (es : list Event) (env : Env) :
  let w := run es (createProvider value0) in
  cell_v (cell (commit w)) = host w
  /\ useContext env (Special (cell (commit w))) =
       Val (mkRendered (cell_n (cell (commit w))) (host w) (host w)).
Proof.
  intros w.
  pose proof (commit_value value0 es) as Hv. fold w in Hv.
  split; [exact Hv|].
  unfold useContext, useContextSelector, identity.
  cbn [get_CONTEXT_VALUE bind]. rewrite require_special_cell. cbn.
  now rewrite Hv.
Qed.

(** X15.  Committing is idempotent: a second commit with no state change
    in between neither moves the version nor broadcasts; re-rendering the
    Provider with an identical value is free. *)
Theorem commit_idempotent (w : World) : commit (commit w) = commit w.
Proof.
  destruct (cell_u (cell w)) eqn:Hu.
  - destruct (commit_provider w Hu) as (Hc & _ & Hd & Hh & _).
    apply commit_settled.
    + rewrite Hc. destruct (deps_changed (deps w) (host w)); assumption.
    + now rewrite Hd, Hh.
  - now rewrite !commit_default by (rewrite ?commit_default; assumption).
Qed.


(* ================================================================== *)
(** * Further properties of consumers *)

Lemma run_subscribes (ls : list Listener) :
  forall w : World, exists s : list Listener,
    run (map Subscribes ls) w = set_listeners s w.
Proof.
  induction ls as [|l ls IH]; intros w.
  - exists (cell_l (cell w)). destruct w as [[v n s u] d h lg b p]. reflexivity.
  - change (run (map Subscribes (l :: ls)) w)
      with (run (map Subscribes ls) (step w (Subscribes l))).
    destruct (IH (step w (Subscribes l))) as (s & Hs). exists s. rewrite Hs. reflexivity.
Qed.

(** X17.  Mounting notifies but does not re-render.  The consumers of a
    new Provider render its first value at version 0 and subscribe; the
    Provider's first commit then makes one phase-2 broadcast, version 1
    with that same value, to all of them.  The reducer of such a consumer,
    whose state still holds the value it rendered, answers it with the old
    state itself and allocates nothing. *)
Theorem mount_broadcast_bails
    (env : Env) (value0 : JsValue) (ls : list Listener) (selector : Selector)
    (r : Rendered) (prev : State) (h : Heap) :
  let w0 := run (map Subscribes ls) (createProvider value0) in
  useContextSelector env (Special (cell w0)) selector = Val r ->
  state_value prev = r_value r ->
  log (commit w0) =
    [mkBroadcast (VersionAndValue 1 value0) (cell_l (cell w0)) 0%nat NormalPriority]
  /\ reducer_of selector r prev (VersionAndValue 1 value0) h = (Val prev, h).
Proof.
  intros w0 Hr Hprev.
  destruct (run_subscribes ls (createProvider value0)) as (s & Hs).
  unfold w0 in *. rewrite Hs in *. cbn in Hr |- *.
  split; [reflexivity|].
  destruct (useContextSelector_reads_cell env _ selector r Hr) as (Hn & Hv & _).
  cbn in Hn, Hv. unfold reducer_of.
  rewrite reducer_newer_value by lia.
  rewrite Hprev, Hv, Object_is_refl. reflexivity.
Qed.

Lemma mount_broadcast_bails_witness :
  log (commit (run (map Subscribes [5%nat; 6%nat]) (createProvider (JsObject 1)))) =
    [mkBroadcast (VersionAndValue 1 (JsObject 1))
       (cell_l (cell (run (map Subscribes [5%nat; 6%nat]) (createProvider (JsObject 1)))))
       0%nat NormalPriority]
  /\ reducer_of brittle_selector (mkRendered 0 (JsObject 1) (JsNumber 0))
       (mkState 0 (JsObject 1) (JsNumber 0)) (VersionAndValue 1 (JsObject 1)) 1%nat =
     (Val (mkState 0 (JsObject 1) (JsNumber 0)), 1%nat).
Proof.
  apply (mount_broadcast_bails (mkEnv true None) (JsObject 1) [5%nat; 6%nat]
           brittle_selector (mkRendered 0 (JsObject 1) (JsNumber 0))
           (mkState 0 (JsObject 1) (JsNumber 0)) 1%nat).
  - reflexivity.
  - reflexivity.
Defined.

(** A state that already agrees with the render survives every
    notification that is not newer. *)
Lemma reduce_all_in_sync
    (selector : Selector) (version : Z) (value selected : JsValue)
    (actions : list Action) (prev : State) (h : Heap) :
  Object_is (state_value prev) value || Object_is (state_selected prev) selected = true ->
  Forall (fun a => action_0 a <= version) actions ->
  reduce_all (reducer selector version value selected) prev actions h = (Val prev, h).
Proof.
  intros Hsync Hall. induction Hall as [|a actions Ha _ IH]; [reflexivity|].
  cbn [reduce_all]. rewrite reducer_not_newer by assumption. now rewrite Hsync.
Qed.

(** X18.  However many notifications that are not newer than its render a
    consumer has queued, its reducer adopts at most once: the state after
    all of them is the old object if its value or its selection is
    identical to the render's (or the queue is empty), and otherwise the
    one object [{ value, selected }] allocated for the first of them. *)
Theorem stale_notifications_adopt_once
    (selector : Selector) (version : Z) (value selected : JsValue)
    (prev : State) (actions : list Action) (h : Heap) :
  Forall (fun a => action_0 a <= version) actions ->
  reduce_all (reducer selector version value selected) prev actions h =
    if Object_is (state_value prev) value || Object_is (state_selected prev) selected
    then (Val prev, h)
    else match actions with
         | [] => (Val prev, h)
         | _ :: _ => (Val (mkState h value selected), S h)
         end.
Proof.
  intros Hall.
  destruct (Object_is (state_value prev) value || Object_is (state_selected prev) selected)
    eqn:Hsync.
  - now apply reduce_all_in_sync.
  - destruct Hall as [|a actions Ha Hall]; [reflexivity|].
    cbn [reduce_all]. rewrite reducer_not_newer by assumption. rewrite Hsync.
    apply reduce_all_in_sync; [|assumption].
    cbn. now rewrite Object_is_refl.
Qed.

Lemma stale_notifications_adopt_once_witness :
  reduce_all (reducer identity 3 (JsNumber 1) (JsNumber 1))
    (mkState 0 (JsNumber 0) (JsNumber 0))
    [VersionOnly 2; VersionAndValue 3 (JsNumber 1)] 1%nat =
  (Val (mkState 1 (JsNumber 1) (JsNumber 1)), 2%nat).
Proof.
  apply (stale_notifications_adopt_once identity 3 (JsNumber 1) (JsNumber 1)
           (mkState 0 (JsNumber 0) (JsNumber 0))
           [VersionOnly 2; VersionAndValue 3 (JsNumber 1)] 1%nat).
  repeat constructor; cbn; lia.
Defined.

Lemma count_from_upper (n : nat) :
  forall (k x : Z), In x (count_from k n) -> x <= k + Z.of_nat n.
Proof.
  induction n as [|n IH]; intros k x Hin; cbn in Hin; [contradiction|].
  destruct Hin as [<- | Hin]; [lia|]. apply IH in Hin. lia.
Qed.

Lemma provided_versions_bounded (w : World) :
  provided w -> Forall (fun b => bc_version b <= cell_n (cell w)) (log w).
Proof.
  intros (_ & Hn & Hlog). apply Forall_forall. intros b Hb.
  apply (in_map bc_version) in Hb. rewrite Hlog in Hb.
  apply count_from_upper in Hb. lia.
Qed.

(** X19.  Catching up.  Let a consumer of a Provider re-render after any
    stretch of events and work off, with the reducer of that render, every
    notification broadcast during the stretch.  Its state ends up either as
    the old object (when its value or its selection is identical to what
    the render read, or nothing was broadcast) or as one new object holding
    exactly the cell's current value and the selection computed from it:
    never a value paired with a selection from another version. *)
Theorem rerender_catches_up
    (value0 : JsValue) (es es' : list Event) (env : Env) (selector : Selector)
    (r : Rendered) (prev : State) (h : Heap) :
  let w := run es (createProvider value0) in
  let w' := run es' w in
  useContextSelector env (Special (cell w')) selector = Val r ->
  selector (cell_v (cell w')) = Val (r_selected r)
  /\ exists ext : list Broadcast,
       log w' = log w ++ ext
       /\ reduce_all (reducer_of selector r) prev (map bc_action ext) h =
            if Object_is (state_value prev) (cell_v (cell w')) ||
               Object_is (state_selected prev) (r_selected r)
            then (Val prev, h)
            else match ext with
                 | [] => (Val prev, h)
                 | _ :: _ => (Val (mkState h (cell_v (cell w')) (r_selected r)), S h)
                 end.
Proof.
  intros w w' Hr.
  destruct (useContextSelector_reads_cell env _ selector r Hr) as (Hn & Hv & Hsel).
  split; [exact Hsel|].
  assert (Hp : provided w').
  { unfold w', w. rewrite <- run_app. apply provided_run, provided_createProvider. }
  destruct (run_effect es' w) as (ext & Hl & _). fold w' in Hl.
  exists ext. split; [exact Hl|].
  assert (Hstale : Forall (fun a => action_0 a <= r_version r) (map bc_action ext)).
  { apply Forall_map. pose proof (provided_versions_bounded w' Hp) as Hb.
    rewrite Hl in Hb. apply Forall_app in Hb. destruct Hb as (_ & Hb).
    eapply Forall_impl; [|exact Hb]. intros b Hle. unfold bc_version in Hle. lia. }
  unfold reducer_of. rewrite <- Hv.
  destruct (Object_is (state_value prev) (r_value r) ||
            Object_is (state_selected prev) (r_selected r)) eqn:Hsync.
  - now apply reduce_all_in_sync.
  - destruct ext as [|b ext]; [reflexivity|].
    inversion Hstale as [|a actions Ha Hrest]; subst.
    cbn [map reduce_all]. rewrite reducer_not_newer by assumption. rewrite Hsync.
    apply reduce_all_in_sync; [|assumption].
    cbn. now rewrite Object_is_refl.
Qed.

Lemma rerender_catches_up_witness :
  identity (cell_v (cell (run [Updates (SetState (fun _ => JsObject 2)); Commits]
                            (run [Subscribes 5%nat; Commits] (createProvider (JsObject 1))))))
    = Val (JsObject 2)
  /\ exists ext : list Broadcast,
       log (run [Updates (SetState (fun _ => JsObject 2)); Commits]
              (run [Subscribes 5%nat; Commits] (createProvider (JsObject 1)))) =
         log (run [Subscribes 5%nat; Commits] (createProvider (JsObject 1))) ++ ext
       /\ reduce_all (reducer_of identity (mkRendered 3 (JsObject 2) (JsObject 2)))
            (mkState 0 (JsObject 1) (JsObject 1)) (map bc_action ext) 1%nat =
            (Val (mkState 1 (JsObject 2) (JsObject 2)), 2%nat).
Proof.
  destruct (rerender_catches_up (JsObject 1) [Subscribes 5%nat; Commits]
              [Updates (SetState (fun _ => JsObject 2)); Commits]
              (mkEnv true None) identity (mkRendered 3 (JsObject 2) (JsObject 2))
              (mkState 0 (JsObject 1) (JsObject 1)) 1%nat eq_refl)
    as (Hsel & ext & Hl & Hred).
  split; [exact Hsel|].
  exists ext. split; [exact Hl|].
  rewrite Hred.
  assert (Hext : ext <> []).
  { intros ->. rewrite app_nil_r in Hl. vm_compute in Hl. discriminate Hl. }
  destruct ext; [contradiction|]. reflexivity.
Defined.

(** X20.  A consumer of the whole value ([useContext]) whose state holds
    one value as both fields keeps its state on a newer phase-2
    notification exactly when the notified value is identical to the one
    it holds; any other value makes its reducer return a new object. *)
Theorem useContext_bails_iff_same_value
    (version : Z) (value : JsValue) (prev : State) (v : Z) (newValue : JsValue) (h : Heap) :
  version < v ->
  allocated h prev ->
  state_selected prev = state_value prev ->
  exists (s : State) (h' : Heap),
    reducer identity version value value prev (VersionAndValue v newValue) h = (Val s, h')
    /\ (same_object s prev = true <-> newValue = state_value prev).
Proof.
  intros Hlt Halloc Hsync.
  rewrite reducer_newer_value by assumption. unfold identity. rewrite Hsync, orb_diag.
  destruct (Object_is (state_value prev) newValue) eqn:Hsame.
  - exists prev, h. split; [reflexivity|]. rewrite same_object_refl.
    apply Object_is_true in Hsame. split; congruence.
  - exists (mkState h value value), (S h). split; [reflexivity|].
    rewrite new_state_distinct by assumption.
    apply Object_is_false in Hsame. split; [discriminate | congruence].
Qed.

Lemma useContext_bails_iff_same_value_witness :
  exists (s : State) (h' : Heap),
    reducer identity 1 (JsObject 1) (JsObject 1) (mkState 0 (JsObject 1) (JsObject 1))
      (VersionAndValue 2 (JsObject 2)) 1%nat = (Val s, h')
    /\ (same_object s (mkState 0 (JsObject 1) (JsObject 1)) = true <->
        JsObject 2 = JsObject 1).
Proof.
  apply (useContext_bails_iff_same_value 1 (JsObject 1) (mkState 0 (JsObject 1) (JsObject 1))
           2 (JsObject 2) 1%nat).
  - lia.
  - unfold allocated; cbn; lia.
  - reflexivity.
Defined.

(* ================================================================== *)
(** * The forced state and the cell at notification time *)

(** C5, as the claim words it, fails.  A consumer selects a constant from
    the object at address 1, at version 1, and subscribes.  The producer
    replaces the object by the one at address 2: the phase-2 notification
    [[2, #2]] finds the selection unchanged, so the reducer returns the old
    state and the consumer is not rendered again; its reducer is still the
    one of the first render.  Then a producer calls update: when the
    phase-1 notification [[3]] arrives the cell holds the object at
    address 2, but the state the reducer builds holds the object at
    address 1, the one its render read. *)
Lemma forced_state_is_not_the_current_cell_counterexample :
  let r := mkRendered 1 (JsObject 1) (JsNumber 0) in
  let prev := mkState 0 (JsObject 1) (JsNumber 0) in
  let w2 := run [SetsState (fun _ => JsObject 2); Commits] mounted_world in
  let w3 := step w2 (Updates noop_thunk) in
  useContextSelector (mkEnv true None) (Special (cell mounted_world)) brittle_selector = Val r
  /\ log w2 = log mounted_world ++
       [mkBroadcast (VersionAndValue 2 (JsObject 2)) [5%nat] 0%nat NormalPriority]
  /\ reducer_of brittle_selector r prev (VersionAndValue 2 (JsObject 2)) 1%nat = (Val prev, 1%nat)
  /\ log w3 = log w2 ++ [mkBroadcast (VersionOnly 3) [5%nat] 1%nat NormalPriority]
  /\ cell_v (cell w3) = JsObject 2
  /\ reducer_of brittle_selector r prev (VersionOnly 3) 1%nat =
       (Val (mkState 1 (JsObject 1) (JsNumber 0)), 2%nat)
  /\ state_value (mkState 1 (JsObject 1) (JsNumber 0)) <> cell_v (cell w3).
Proof.
  cbv zeta. repeat apply conj; try (vm_compute; reflexivity).
  vm_compute. discriminate.
Qed.

(* ================================================================== *)
(** * The usage error, over context objects *)




(* ================================================================== *)
(** * The version as a JavaScript number *)

Lemma js_add1_ge (x : Z) : x <= js_add1 x.
Proof.
  unfold js_add1.
  destruct ((- two_53 <=? x) && (x <? two_53)); [lia|].
  destruct (Z.abs x <? 2 * two_53); [|lia].
  destruct (Z.even (x / 2)); lia.
Qed.

Lemma js_add1_exact (x : Z) : - two_53 <= x < two_53 -> js_add1 x = x + 1.
Proof.
  intros [Hlo Hhi]. unfold js_add1.
  apply Z.leb_le in Hlo. apply Z.ltb_lt in Hhi. now rewrite Hlo, Hhi.
Qed.

(** A sum that is still below 2^53 was exact. *)
Lemma js_add1_below (x : Z) :
  - two_53 <= x -> js_add1 x < two_53 -> js_add1 x = x + 1.
Proof.
  intros Hlo Hhi. apply js_add1_exact. pose proof (js_add1_ge x). lia.
Qed.

Lemma js_add1_limit : js_add1 two_53 = two_53.
Proof. reflexivity. Qed.

Lemma js_add1_bounded (x : Z) : - two_53 <= x <= two_53 -> js_add1 x <= two_53.
Proof.
  intros [Hlo Hhi]. destruct (Z.eq_dec x two_53) as [->|Hne].
  - rewrite js_add1_limit. lia.
  - rewrite js_add1_exact by lia. lia.
Qed.

Lemma bump_version_js_exact (w : World) :
  js_add1 (cell_n (cell w)) = cell_n (cell w) + 1 -> bump_version_js w = bump_version w.
Proof. intros H. unfold bump_version_js, bump_version. now rewrite H. Qed.

Lemma update_body_js_unfold (thunk : World -> World) (w : World) :
  update_body_js thunk w =
    set_batch_depth (batch_depth w)
      (thunk (forEach_listener (VersionOnly (js_add1 (cell_n (cell w))))
                (bump_version_js (set_batch_depth (S (batch_depth w)) w)))).
Proof. reflexivity. Qed.

(** A thunk keeps the update closure, never lowers the version and keeps it
    within the numbers up to 2^53. *)
Lemma run_thunk_js_frame (t : Thunk) :
  forall w : World,
    cell_u (cell (run_thunk_js t w)) = cell_u (cell w)
    /\ cell_n (cell w) <= cell_n (cell (run_thunk_js t w))
    /\ (- two_53 <= cell_n (cell w) <= two_53 ->
        cell_n (cell (run_thunk_js t w)) <= two_53).
Proof.
  induction t as [f | t' IH | a IHa b IHb]; intros w.
  - cbn. repeat split; lia.
  - cbn [run_thunk_js]. destruct (cell_u (cell w)) eqn:Hu; cbn [call_update_js].
    + rewrite update_body_js_unfold. cbn [set_batch_depth cell].
      destruct (IH (forEach_listener (VersionOnly (js_add1 (cell_n (cell w))))
                      (bump_version_js (set_batch_depth (S (batch_depth w)) w))))
        as (Hu' & Hle & Hup).
      cbn [forEach_listener bump_version_js set_batch_depth set_log set_cell cell
           cell_n cell_u] in Hu', Hle, Hup.
      pose proof (js_add1_ge (cell_n (cell w))) as Hge.
      repeat split; [congruence | lia |].
      intros Hb. apply Hup. pose proof (js_add1_bounded _ Hb). lia.
    + destruct (IH w) as (Hu' & Hle & Hup). rewrite Hu in Hu'. auto.
  - cbn [run_thunk_js].
    destruct (IHa w) as (Hua & Hla & Hupa).
    destruct (IHb (run_thunk_js a w)) as (Hub & Hlb & Hupb).
    repeat split; [congruence | lia |].
    intros Hb. apply Hupb. specialize (Hupa Hb). lia.
Qed.

(** A thunk after which the version is below 2^53 ran with exact sums. *)
Lemma run_thunk_js_exact (t : Thunk) :
  forall w : World,
    - two_53 <= cell_n (cell w) ->
    cell_n (cell (run_thunk_js t w)) < two_53 ->
    run_thunk_js t w = run_thunk t w.
Proof.
  induction t as [f | t' IH | a IHa b IHb]; intros w Hlo Hhi.
  - reflexivity.
  - cbn [run_thunk_js run_thunk] in *.
    destruct (cell_u (cell w)) eqn:Hu; cbn [call_update_js call_update] in *.
    + rewrite update_body_js_unfold in *. rewrite update_body_unfold.
      cbn [set_batch_depth cell] in Hhi.
      set (w1 := forEach_listener (VersionOnly (js_add1 (cell_n (cell w))))
                   (bump_version_js (set_batch_depth (S (batch_depth w)) w))) in *.
      destruct (run_thunk_js_frame t' w1) as (_ & Hle & _).
      assert (Hn1 : cell_n (cell w1) = js_add1 (cell_n (cell w))) by reflexivity.
      assert (Hinc : js_add1 (cell_n (cell w)) = cell_n (cell w) + 1)
        by (apply js_add1_below; lia).
      assert (Hw1 : w1 = forEach_listener (VersionOnly (cell_n (cell w) + 1))
                          (bump_version (set_batch_depth (S (batch_depth w)) w))).
      { subst w1. rewrite bump_version_js_exact by exact Hinc. now rewrite Hinc. }
      rewrite IH; [now rewrite Hw1 | lia | assumption].
    + now apply IH.
  - cbn [run_thunk_js run_thunk] in *.
    destruct (run_thunk_js_frame a w) as (_ & Hla & _).
    destruct (run_thunk_js_frame b (run_thunk_js a w)) as (_ & Hlb & _).
    rewrite IHb by lia. rewrite IHa by lia. reflexivity.
Qed.

(** The commit of a Provider render, with the sum of JavaScript numbers. *)
Lemma commit_js_provider (w : World) :
  cell_u (cell w) = ProviderUpdate ->
  cell_u (cell (commit_js w)) = ProviderUpdate
  /\ cell_n (cell (commit_js w)) =
       (if deps_changed (deps w) (host w) then js_add1 (cell_n (cell w)) else cell_n (cell w))
  /\ (js_add1 (cell_n (cell w)) = cell_n (cell w) + 1 -> commit_js w = commit w).
Proof.
  intros Hu.
  unfold commit_js, commit, runWithPriority, provider_layout_effect_js,
    provider_layout_effect.
  rewrite Hu. cbn [set_priority deps host].
  destruct (deps_changed (deps w) (host w)).
  - unfold provider_effect_js, provider_effect, runWithPriority.
    repeat split; [exact Hu|].
    intros Hinc. rewrite bump_version_js_exact by exact Hinc.
    cbn [bump_version assign_value set_deps set_priority set_cell cell cell_n].
    reflexivity.
  - cbn. auto.
Qed.

(** One event: the closure stays, the version does not go down and stays
    within the numbers up to 2^53; and if it is below 2^53 afterwards, the
    event went as with exact sums. *)
Lemma step_js_frame (w : World) (e : Event) :
  cell_u (cell (step_js w e)) = cell_u (cell w)
  /\ cell_n (cell w) <= cell_n (cell (step_js w e))
  /\ (- two_53 <= cell_n (cell w) <= two_53 -> cell_n (cell (step_js w e)) <= two_53)
  /\ (- two_53 <= cell_n (cell w) -> cell_n (cell (step_js w e)) < two_53 ->
      step_js w e = step w e).
Proof.
  destruct e as [t | f | | l | l].
  - change (step_js w (Updates t)) with (run_thunk_js (CallUpdate t) w).
    change (step w (Updates t)) with (run_thunk (CallUpdate t) w).
    destruct (run_thunk_js_frame (CallUpdate t) w) as (Hu & Hle & Hup).
    repeat split; auto. apply run_thunk_js_exact.
  - cbn. repeat split; auto; lia.
  - cbn [step_js step]. destruct (cell_u (cell w)) eqn:Hu.
    + destruct (commit_js_provider w Hu) as (Hu' & Hn & Hex). rewrite Hn.
      pose proof (js_add1_ge (cell_n (cell w))) as Hge.
      destruct (deps_changed (deps w) (host w)) eqn:Hd.
      * repeat split; auto.
        -- intros Hb. now apply js_add1_bounded.
        -- intros Hlo Hhi. apply Hex. now apply js_add1_below.
      * repeat split; auto; try lia.
        intros _ _. unfold commit_js, commit, runWithPriority, provider_layout_effect_js,
          provider_layout_effect.
        rewrite Hu. cbn [set_priority deps host]. now rewrite Hd.
    + unfold commit_js, commit. rewrite Hu. repeat split; auto; lia.
  - cbn. repeat split; auto; lia.
  - cbn. repeat split; auto; lia.
Qed.

Lemma run_js_app (es1 es2 : list Event) (w : World) :
  run_js (es1 ++ es2) w = run_js es2 (run_js es1 w).
Proof. unfold run_js. apply fold_left_app. Qed.

Lemma run_js_frame (es : list Event) :
  forall w : World,
    cell_u (cell (run_js es w)) = cell_u (cell w)
    /\ cell_n (cell w) <= cell_n (cell (run_js es w))
    /\ (- two_53 <= cell_n (cell w) <= two_53 -> cell_n (cell (run_js es w)) <= two_53).
Proof.
  induction es as [|e es IH]; intros w.
  - cbn. repeat split; lia.
  - change (run_js (e :: es) w) with (run_js es (step_js w e)).
    destruct (step_js_frame w e) as (Hu & Hle & Hup & _).
    destruct (IH (step_js w e)) as (Hu' & Hle' & Hup').
    repeat split; [congruence | lia |].
    intros Hb. apply Hup'. specialize (Hup Hb). lia.
Qed.

(** A run after which the version is below 2^53 went exactly as the run
    with exact sums. *)
Lemma run_js_exact (es : list Event) :
  forall w : World,
    - two_53 <= cell_n (cell w) ->
    cell_n (cell (run_js es w)) < two_53 ->
    run_js es w = run es w.
Proof.
  induction es as [|e es IH]; intros w Hlo Hhi; [reflexivity|].
  change (run_js (e :: es) w) with (run_js es (step_js w e)) in *.
  change (run (e :: es) w) with (run es (step w e)).
  destruct (step_js_frame w e) as (_ & Hle & _ & Hex).
  destruct (run_js_frame es (step_js w e)) as (_ & Hle' & _).
  rewrite IH by lia. rewrite Hex by lia. reflexivity.
Qed.

(** C1, as the code has it.  The version is a JavaScript number.  Take any
    Provider, from its first render on, through any sequence of update
    calls, state changes, commits, subscriptions and unsubscriptions.  The
    version lies between 0 and 2^53 and no event ever lowers it.  An update
    after which it is below 2^53 has added exactly one for its phase 1 and
    one for every update call inside its thunk; the layout effect, run
    below 2^53, adds exactly one.  And as long as the version is below
    2^53, it equals the number of broadcasts made so far, and the versions
    carried by the broadcasts, in the order they were made, are strictly
    increasing, hence pairwise distinct. *)
Theorem version_increases_below_two_53 (value0 : JsValue) (es : list Event) :
  let w := run_js es (createProvider value0) in
  0 <= cell_n (cell w) <= two_53
  /\ (forall e : Event, cell_n (cell w) <= cell_n (cell (step_js w e)))
  /\ (forall es' : list Event,
         cell_n (cell w) <= cell_n (cell (run_js (es ++ es') (createProvider value0))))
  /\ (forall t : Thunk,
         cell_n (cell (update_js t w)) < two_53 ->
         cell_n (cell (update_js t w)) = cell_n (cell w) + 1 + Z.of_nat (update_calls t))
  /\ (forall value : JsValue,
         cell_n (cell w) < two_53 ->
         cell_n (cell (provider_effect_js value w)) = cell_n (cell w) + 1)
  /\ (cell_n (cell w) < two_53 ->
      cell_n (cell w) = Z.of_nat (length (log w))
      /\ StronglySorted Z.lt (map bc_version (log w))
      /\ NoDup (map bc_version (log w))).
Proof.
  intros w.
  destruct (run_js_frame es (createProvider value0)) as (Hu & Hlo & Hup).
  fold w in Hu, Hlo, Hup. cbn in Hu, Hlo, Hup.
  assert (Hb : 0 <= cell_n (cell w) <= two_53)
    by (split; [exact Hlo | apply Hup; unfold two_53; lia]).
  repeat apply conj; try apply Hb.
  - intros e. apply step_js_frame.
  - intros es'. rewrite run_js_app. apply run_js_frame.
  - intros t Hhi.
    change (update_js t w) with (update_body_js (run_thunk_js t) w) in *.
    assert (Hstep : step_js w (Updates t) = update_body_js (run_thunk_js t) w)
      by (cbn [step_js]; now rewrite Hu).
    rewrite <- Hstep in *.
    destruct (step_js_frame w (Updates t)) as (_ & _ & _ & Hex).
    rewrite Hex by (unfold two_53 in *; lia).
    change (step w (Updates t)) with (run_thunk (CallUpdate t) w).
    rewrite run_thunk_version, Hu. cbn [update_calls]. lia.
  - intros value Hhi. unfold provider_effect_js, runWithPriority. cbn.
    apply js_add1_exact. unfold two_53 in *. lia.
  - intros Hhi.
    assert (Hex : w = run es (createProvider value0)).
    { apply run_js_exact; [cbn; unfold two_53; lia | exact Hhi]. }
    assert (Hp : provided w) by (rewrite Hex; apply provided_run, provided_createProvider).
    destruct Hp as (_ & Hn & Hlog).
    assert (Hsorted : StronglySorted Z.lt (map bc_version (log w)))
      by (rewrite Hlog; apply count_from_sorted).
    repeat split; [exact Hn | exact Hsorted | now apply sorted_lt_NoDup].
Qed.

Lemma version_increases_below_two_53_witness :
  cell_n (cell (run_js example_events (createProvider (JsObject 1)))) =
    Z.of_nat (length (log (run_js example_events (createProvider (JsObject 1)))))
  /\ StronglySorted Z.lt
       (map bc_version (log (run_js example_events (createProvider (JsObject 1)))))
  /\ NoDup (map bc_version (log (run_js example_events (createProvider (JsObject 1))))).
Proof.
  apply (proj2 (proj2 (proj2 (proj2 (proj2
           (version_increases_below_two_53 (JsObject 1) example_events)))))).
  reflexivity.
Defined.

(** One update with a thunk that changes nothing, on a Provider's cell. *)
Lemma step_js_noop_update (w : World) :
  cell_u (cell w) = ProviderUpdate ->
  cell_u (cell (step_js w (Updates noop_thunk))) = ProviderUpdate
  /\ cell_n (cell (step_js w (Updates noop_thunk))) = js_add1 (cell_n (cell w))
  /\ log (step_js w (Updates noop_thunk)) =
       log w ++ [mkBroadcast (VersionOnly (js_add1 (cell_n (cell w)))) (cell_l (cell w))
                   (S (batch_depth w)) (priority w)].
Proof.
  intros Hu. cbn [step_js]. rewrite Hu. cbn [call_update_js].
  rewrite update_body_js_unfold. unfold noop_thunk. cbn [run_thunk_js].
  cbn [set_host set_batch_depth forEach_listener bump_version_js set_log set_cell
       cell cell_u cell_n cell_l log batch_depth priority].
  repeat split. exact Hu.
Qed.

(** So many such updates, while the sums stay exact. *)
Lemma run_js_noop_updates (k : nat) :
  forall w : World,
    cell_u (cell w) = ProviderUpdate ->
    - two_53 <= cell_n (cell w) ->
    cell_n (cell w) + Z.of_nat k <= two_53 ->
    cell_u (cell (run_js (repeat (Updates noop_thunk) k) w)) = ProviderUpdate
    /\ cell_n (cell (run_js (repeat (Updates noop_thunk) k) w)) = cell_n (cell w) + Z.of_nat k.
Proof.
  induction k as [|k IH]; intros w Hu Hlo Hhi.
  - cbn. split; [exact Hu | lia].
  - change (run_js (repeat (Updates noop_thunk) (S k)) w)
      with (run_js (repeat (Updates noop_thunk) k) (step_js w (Updates noop_thunk))).
    destruct (step_js_noop_update w Hu) as (Hu' & Hn' & _).
    rewrite js_add1_exact in Hn' by lia.
    destruct (IH (step_js w (Updates noop_thunk)) Hu') as (Hu'' & Hn''); [lia | lia |].
    split; [exact Hu'' | lia].
Qed.

(** Two broadcasts in a row with one version: the versions repeat. *)
Lemma repeated_version_not_NoDup
    (before : list Broadcast) (b1 b2 : Broadcast) (v : Z) :
  bc_action b1 = VersionOnly v ->
  bc_action b2 = VersionOnly v ->
  ~ NoDup (map bc_version (before ++ [b1; b2])).
Proof.
  intros H1 H2 Hnd. rewrite map_app in Hnd. apply NoDup_app_remove_l in Hnd.
  apply NoDup_cons_iff in Hnd. destruct Hnd as (Hnot & _).
  apply Hnot. left. unfold bc_version. now rewrite H1, H2.
Qed.

(** C1, as the claim words it, fails.  After 2^53 updates of a new
    Provider the version is 2^53.  A further update leaves it there: its
    phase 1 adds nothing; and two further updates make two broadcasts that
    both carry 2^53, so the versions of the broadcasts of this sequence of
    update calls are not pairwise distinct. *)
Lemma version_repeats_at_two_53_counterexample :
  let es := repeat (Updates noop_thunk) (Z.to_nat two_53) in
  let w := run_js es (createProvider JsNull) in
  cell_n (cell w) = two_53
  /\ cell_n (cell (update_js noop_thunk w)) = cell_n (cell w)
  /\ (exists (before : list Broadcast) (b1 b2 : Broadcast),
        log (run_js [Updates noop_thunk; Updates noop_thunk] w) = before ++ [b1; b2]
        /\ bc_action b1 = VersionOnly two_53
        /\ bc_action b2 = VersionOnly two_53)
  /\ ~ NoDup (map bc_version
                (log (run_js (es ++ [Updates noop_thunk; Updates noop_thunk])
                        (createProvider JsNull)))).
Proof.
  cbv zeta.
  assert (Hk : Z.of_nat (Z.to_nat two_53) = two_53)
    by (apply Z2Nat.id; unfold two_53; lia).
  remember (Z.to_nat two_53) as k eqn:Heqk. clear Heqk.
  destruct (run_js_noop_updates k (createProvider JsNull) eq_refl) as (Hu & Hn).
  { cbn [createProvider cell cell_n]. unfold two_53. lia. }
  { cbn [createProvider cell cell_n]. lia. }
  cbn [createProvider cell cell_n] in Hn. rewrite Hk, Z.add_0_l in Hn.
  set (w := run_js (repeat (Updates noop_thunk) k) (createProvider JsNull)) in *.
  destruct (step_js_noop_update w Hu) as (Hu1 & Hn1 & Hl1).
  rewrite Hn, js_add1_limit in Hn1, Hl1.
  destruct (step_js_noop_update _ Hu1) as (_ & _ & Hl2).
  rewrite Hn1, js_add1_limit, Hl1, <- app_assoc in Hl2. cbn [app] in Hl2.
  assert (Hlog : log (run_js [Updates noop_thunk; Updates noop_thunk] w) =
                 log w ++
                 [mkBroadcast (VersionOnly two_53) (cell_l (cell w))
                    (S (batch_depth w)) (priority w);
                  mkBroadcast (VersionOnly two_53)
                    (cell_l (cell (step_js w (Updates noop_thunk))))
                    (S (batch_depth (step_js w (Updates noop_thunk))))
                    (priority (step_js w (Updates noop_thunk)))])
    by exact Hl2.
  repeat apply conj.
  - exact Hn.
  - assert (Hstep : step_js w (Updates noop_thunk) = update_js noop_thunk w)
      by (cbn [step_js]; now rewrite Hu).
    rewrite <- Hstep, Hn1. now rewrite Hn.
  - eexists _, _, _. split; [exact Hlog|]. split; reflexivity.
  - rewrite run_js_app. fold w. rewrite Hlog.
    apply (repeated_version_not_NoDup _ _ _ two_53); reflexivity.
Qed.
